(** * WebSocket proxy agent: connection manager and HTTP execution bridge

    A shallow embedding of [services/webSocketService.ts]: the module-level
    variables become one record threaded through the handlers, the browser
    objects the handlers touch (WebSocket instances, timers, the console)
    become further fields of the same record, and every handler becomes a
    function on that record.  The HTTP execution bridge [handleHttpRequest]
    is an [async] function; it is embedded in a writer/exception monad whose
    log records the calls it makes. *)

From Stdlib Require Import ZArith NArith String Ascii List Bool Lia.
From stdpp Require Import base option list strings gmap.

Local Open Scope Z_scope.

(** ** Constants of the module *)

Definition BASE_WEBSOCKET_URL : string := "wss://lbls888-cliproxyapi.hf.space/v1/ws".
Definition PING_INTERVAL_MS : Z := 25 * 1000.
Definition RECONNECT_INITIAL_DELAY_MS : Z := 1000.
Definition RECONNECT_MAX_DELAY_MS : Z := 30 * 1000.
Definition RECONNECT_JITTER_MS : Z := 500.

Definition WS_CONNECTING : Z := 0.
Definition WS_OPEN : Z := 1.
Definition WS_CLOSING : Z := 2.
Definition WS_CLOSED : Z := 3.

(** ** Data *)

(** The enum imported from [../types]; its members are the ones the module
    uses. *)
Inductive WebSocketProxyStatus :=
| IDLE | CONNECTING | CONNECTED | RECONNECTING | DISCONNECTED | ERROR.

Definition status_eqb (a b : WebSocketProxyStatus) : bool :=
  match a, b with
  | IDLE, IDLE | CONNECTING, CONNECTING | CONNECTED, CONNECTED
  | RECONNECTING, RECONNECTING | DISCONNECTED, DISCONNECTED | ERROR, ERROR => true
  | _, _ => false
  end.

(** The [details] argument of [updateStatus].  Fixed texts are kept as
    strings; template literals keep the values they interpolate.  Every
    detail the module passes is a non-empty string, so a present detail is
    truthy. *)
Inductive Detail :=
| DText (s : string)
| DClosedByClient (code : Z)
| DClosed (code : Z) (reason : string)
| DReconnectIn (base : Z) (draw : nat)
| DInstantiate (msg : string).

(** JSON values, as produced by [JSON.parse]. *)
#[local] Unset Elimination Schemes.
Inductive Json :=
| JNull
| JBool (b : bool)
| JNumber (n : Z)
| JString (s : string)
| JArray (items : list Json)
| JObject (fields : list (string * Json)).
#[local] Set Elimination Schemes.

(** Decoded text is kept as its sequence of Unicode scalar values. *)
Definition text := list N.

Record HttpRequestPayload := {
  method : string;
  url : string;
  headers : list (string * string);
  body : option string
}.

Record WSHttpRequestMessage := {
  id : string;
  payload : HttpRequestPayload
}.

Record ErrorHttpResponse := {
  ehr_status : Z;
  ehr_headers : gmap string string;
  ehr_body : string
}.

(** Messages the agent sends ([WSClientSentMessage]). *)
Inductive WSClientSentMessage :=
| WSHttpResponseMessage (i : string) (status : Z) (hs : gmap string string) (b : string)
| WSStreamStartMessage (i : string) (status : Z) (hs : gmap string string)
| WSStreamChunkMessage (i : string) (data : text)
| WSStreamEndMessage (i : string)
| WSErrorMessage (i : string) (code : string) (message : string)
                 (http_response : option ErrorHttpResponse)
| WSPingMessage.


(** A WebSocket instance: the URL it was built with, its [readyState], the
    frames handed to [send], and the arguments of a [close] call. *)
Record WebSocketObj := {
  ws_url : string;
  readyState : Z;
  ws_sent : list WSClientSentMessage;
  ws_close_call : option (Z * string)
}.

(** A pending [setTimeout]: its handle and its delay, the stored backoff
    plus [Math.random() * RECONNECT_JITTER_MS]; the random draw is named by
    its index in the sequence of [Math.random] calls. *)
Record Timeout := {
  tm_handle : positive;
  tm_base : Z;
  tm_draw : nat
}.

Record CloseEvent := {
  ce_code : Z;
  ce_reason : string
}.

(** What the handlers do to the outside, in order. *)
Inductive Effect :=
| StatusLogged (s : WebSocketProxyStatus) (details : option Detail)
| ObserverCalled (s : WebSocketProxyStatus) (details : option Detail)
| Sent (k : nat) (m : WSClientSentMessage)
| SendDropped (m : WSClientSentMessage)
| Constructed (k : nat) (u : string)
| ConstructFailed (u : string) (msg : string)
| CloseCalled (k : nat) (code : Z) (reason : string)
| AlreadyConnected
| UnknownType (j : Json)
| ParseFailed (data : string)
| SocketErrorLogged (k : nat)
| Dispatched (req : WSHttpRequestMessage)
| DispatchedUntyped (j : Json)
| TimeoutSet (t : Timeout)
| TimeoutCleared (h : positive)
| IntervalSet (h : positive) (period : Z)
| IntervalCleared (h : positive).

(** The module's variables (first eight fields) and the browser state they
    refer to.  Timer handles are integers greater than zero, hence always
    truthy. *)
Record World := {
  socket : option nat;
  currentStatus : WebSocketProxyStatus;
  onStatusChangeCallback : bool;
  pingIntervalId : option positive;
  reconnectTimeoutId : option positive;
  currentReconnectDelay : Z;
  explicitClose : bool;
  currentJwtToken : option string;
  sockets : list WebSocketObj;
  timeouts : list Timeout;
  intervals : list (positive * Z);
  next_handle : positive;
  random_calls : nat;
  trace : list Effect
}.

Definition initial : World := {|
  socket := None;
  currentStatus := IDLE;
  onStatusChangeCallback := false;
  pingIntervalId := None;
  reconnectTimeoutId := None;
  currentReconnectDelay := RECONNECT_INITIAL_DELAY_MS;
  explicitClose := false;
  currentJwtToken := None;
  sockets := [];
  timeouts := [];
  intervals := [];
  next_handle := 1%positive;
  random_calls := 0%nat;
  trace := []
|}.

(** Field updates. *)
Definition set_socket (v : option nat) (w : World) : World :=
  {| socket := v; currentStatus := currentStatus w;
     onStatusChangeCallback := onStatusChangeCallback w;
     pingIntervalId := pingIntervalId w; reconnectTimeoutId := reconnectTimeoutId w;
     currentReconnectDelay := currentReconnectDelay w; explicitClose := explicitClose w;
     currentJwtToken := currentJwtToken w; sockets := sockets w; timeouts := timeouts w;
     intervals := intervals w; next_handle := next_handle w;
     random_calls := random_calls w; trace := trace w |}.

Definition set_currentStatus (v : WebSocketProxyStatus) (w : World) : World :=
  {| socket := socket w; currentStatus := v;
     onStatusChangeCallback := onStatusChangeCallback w;
     pingIntervalId := pingIntervalId w; reconnectTimeoutId := reconnectTimeoutId w;
     currentReconnectDelay := currentReconnectDelay w; explicitClose := explicitClose w;
     currentJwtToken := currentJwtToken w; sockets := sockets w; timeouts := timeouts w;
     intervals := intervals w; next_handle := next_handle w;
     random_calls := random_calls w; trace := trace w |}.

Definition set_onStatusChangeCallback (v : bool) (w : World) : World :=
  {| socket := socket w; currentStatus := currentStatus w;
     onStatusChangeCallback := v;
     pingIntervalId := pingIntervalId w; reconnectTimeoutId := reconnectTimeoutId w;
     currentReconnectDelay := currentReconnectDelay w; explicitClose := explicitClose w;
     currentJwtToken := currentJwtToken w; sockets := sockets w; timeouts := timeouts w;
     intervals := intervals w; next_handle := next_handle w;
     random_calls := random_calls w; trace := trace w |}.

Definition set_pingIntervalId (v : option positive) (w : World) : World :=
  {| socket := socket w; currentStatus := currentStatus w;
     onStatusChangeCallback := onStatusChangeCallback w;
     pingIntervalId := v; reconnectTimeoutId := reconnectTimeoutId w;
     currentReconnectDelay := currentReconnectDelay w; explicitClose := explicitClose w;
     currentJwtToken := currentJwtToken w; sockets := sockets w; timeouts := timeouts w;
     intervals := intervals w; next_handle := next_handle w;
     random_calls := random_calls w; trace := trace w |}.

Definition set_reconnectTimeoutId (v : option positive) (w : World) : World :=
  {| socket := socket w; currentStatus := currentStatus w;
     onStatusChangeCallback := onStatusChangeCallback w;
     pingIntervalId := pingIntervalId w; reconnectTimeoutId := v;
     currentReconnectDelay := currentReconnectDelay w; explicitClose := explicitClose w;
     currentJwtToken := currentJwtToken w; sockets := sockets w; timeouts := timeouts w;
     intervals := intervals w; next_handle := next_handle w;
     random_calls := random_calls w; trace := trace w |}.

Definition set_currentReconnectDelay (v : Z) (w : World) : World :=
  {| socket := socket w; currentStatus := currentStatus w;
     onStatusChangeCallback := onStatusChangeCallback w;
     pingIntervalId := pingIntervalId w; reconnectTimeoutId := reconnectTimeoutId w;
     currentReconnectDelay := v; explicitClose := explicitClose w;
     currentJwtToken := currentJwtToken w; sockets := sockets w; timeouts := timeouts w;
     intervals := intervals w; next_handle := next_handle w;
     random_calls := random_calls w; trace := trace w |}.

Definition set_explicitClose (v : bool) (w : World) : World :=
  {| socket := socket w; currentStatus := currentStatus w;
     onStatusChangeCallback := onStatusChangeCallback w;
     pingIntervalId := pingIntervalId w; reconnectTimeoutId := reconnectTimeoutId w;
     currentReconnectDelay := currentReconnectDelay w; explicitClose := v;
     currentJwtToken := currentJwtToken w; sockets := sockets w; timeouts := timeouts w;
     intervals := intervals w; next_handle := next_handle w;
     random_calls := random_calls w; trace := trace w |}.

Definition set_currentJwtToken (v : option string) (w : World) : World :=
  {| socket := socket w; currentStatus := currentStatus w;
     onStatusChangeCallback := onStatusChangeCallback w;
     pingIntervalId := pingIntervalId w; reconnectTimeoutId := reconnectTimeoutId w;
     currentReconnectDelay := currentReconnectDelay w; explicitClose := explicitClose w;
     currentJwtToken := v; sockets := sockets w; timeouts := timeouts w;
     intervals := intervals w; next_handle := next_handle w;
     random_calls := random_calls w; trace := trace w |}.

Definition set_sockets (v : list WebSocketObj) (w : World) : World :=
  {| socket := socket w; currentStatus := currentStatus w;
     onStatusChangeCallback := onStatusChangeCallback w;
     pingIntervalId := pingIntervalId w; reconnectTimeoutId := reconnectTimeoutId w;
     currentReconnectDelay := currentReconnectDelay w; explicitClose := explicitClose w;
     currentJwtToken := currentJwtToken w; sockets := v; timeouts := timeouts w;
     intervals := intervals w; next_handle := next_handle w;
     random_calls := random_calls w; trace := trace w |}.

Definition set_timeouts (v : list Timeout) (w : World) : World :=
  {| socket := socket w; currentStatus := currentStatus w;
     onStatusChangeCallback := onStatusChangeCallback w;
     pingIntervalId := pingIntervalId w; reconnectTimeoutId := reconnectTimeoutId w;
     currentReconnectDelay := currentReconnectDelay w; explicitClose := explicitClose w;
     currentJwtToken := currentJwtToken w; sockets := sockets w; timeouts := v;
     intervals := intervals w; next_handle := next_handle w;
     random_calls := random_calls w; trace := trace w |}.

Definition set_intervals (v : list (positive * Z)) (w : World) : World :=
  {| socket := socket w; currentStatus := currentStatus w;
     onStatusChangeCallback := onStatusChangeCallback w;
     pingIntervalId := pingIntervalId w; reconnectTimeoutId := reconnectTimeoutId w;
     currentReconnectDelay := currentReconnectDelay w; explicitClose := explicitClose w;
     currentJwtToken := currentJwtToken w; sockets := sockets w; timeouts := timeouts w;
     intervals := v; next_handle := next_handle w;
     random_calls := random_calls w; trace := trace w |}.

Definition set_next_handle (v : positive) (w : World) : World :=
  {| socket := socket w; currentStatus := currentStatus w;
     onStatusChangeCallback := onStatusChangeCallback w;
     pingIntervalId := pingIntervalId w; reconnectTimeoutId := reconnectTimeoutId w;
     currentReconnectDelay := currentReconnectDelay w; explicitClose := explicitClose w;
     currentJwtToken := currentJwtToken w; sockets := sockets w; timeouts := timeouts w;
     intervals := intervals w; next_handle := v;
     random_calls := random_calls w; trace := trace w |}.

Definition set_random_calls (v : nat) (w : World) : World :=
  {| socket := socket w; currentStatus := currentStatus w;
     onStatusChangeCallback := onStatusChangeCallback w;
     pingIntervalId := pingIntervalId w; reconnectTimeoutId := reconnectTimeoutId w;
     currentReconnectDelay := currentReconnectDelay w; explicitClose := explicitClose w;
     currentJwtToken := currentJwtToken w; sockets := sockets w; timeouts := timeouts w;
     intervals := intervals w; next_handle := next_handle w;
     random_calls := v; trace := trace w |}.

Definition log (e : Effect) (w : World) : World :=
  {| socket := socket w; currentStatus := currentStatus w;
     onStatusChangeCallback := onStatusChangeCallback w;
     pingIntervalId := pingIntervalId w; reconnectTimeoutId := reconnectTimeoutId w;
     currentReconnectDelay := currentReconnectDelay w; explicitClose := explicitClose w;
     currentJwtToken := currentJwtToken w; sockets := sockets w; timeouts := timeouts w;
     intervals := intervals w; next_handle := next_handle w;
     random_calls := random_calls w; trace := trace w ++ [e] |}.

(** ** Browser primitives *)

Definition set_readyState (v : Z) (o : WebSocketObj) : WebSocketObj :=
  {| ws_url := ws_url o; readyState := v; ws_sent := ws_sent o;
     ws_close_call := ws_close_call o |}.

Definition ready_state (w : World) (k : nat) : option Z :=
  readyState <$> (sockets w !! k).

(** [Math.random()]: the call is identified by its index. *)
Definition Math_random (w : World) : nat * World :=
  (random_calls w, set_random_calls (S (random_calls w)) w).

(** [window.setTimeout(cb, base + draw * RECONNECT_JITTER_MS)]. *)
Definition setTimeout (base : Z) (draw : nat) (w : World) : positive * World :=
  let h := next_handle w in
  let t := {| tm_handle := h; tm_base := base; tm_draw := draw |} in
  (h, log (TimeoutSet t)
        (set_timeouts (timeouts w ++ [t])
           (set_next_handle (Pos.succ h) w))).

Definition clearTimeout (h : positive) (w : World) : World :=
  log (TimeoutCleared h)
    (set_timeouts (filter (fun t => tm_handle t ≠ h) (timeouts w)) w).

Definition setInterval (period : Z) (w : World) : positive * World :=
  let h := next_handle w in
  (h, log (IntervalSet h period)
        (set_intervals (intervals w ++ [(h, period)])
           (set_next_handle (Pos.succ h) w))).

Definition clearInterval (h : positive) (w : World) : World :=
  log (IntervalCleared h)
    (set_intervals (filter (fun p => fst p ≠ h) (intervals w)) w).

(** JavaScript truthiness of a [string | null]. *)
Definition truthy (s : option string) : bool :=
  match s with
  | Some (String _ _) => true
  | _ => false
  end.

(** Reading a property of a parsed value: [undefined] unless the value is
    an object that has the field. *)
Fixpoint lookup_field (name : string) (fields : list (string * Json)) : option Json :=
  match fields with
  | [] => None
  | (n, v) :: rest => if String.eqb n name then Some v else lookup_field name rest
  end.

Definition json_prop (name : string) (j : Json) : option Json :=
  match j with
  | JObject fields => lookup_field name fields
  | _ => None
  end.

Definition json_string (j : option Json) : option string :=
  match j with
  | Some (JString s) => Some s
  | _ => None
  end.

Fixpoint json_headers (fields : list (string * Json)) : option (list (string * string)) :=
  match fields with
  | [] => Some []
  | (n, JString v) :: rest =>
      match json_headers rest with
      | Some hs => Some ((n, v) :: hs)
      | None => None
      end
  | _ => None
  end.

(** The cast [message as WSHttpRequestMessage]: the frames that have the
    declared shape [{id, payload: {method, url, headers, body?}}]. *)
Definition asHttpRequest (message : Json) : option WSHttpRequestMessage :=
  match json_string (json_prop "id" message), json_prop "payload" message with
  | Some i, Some p =>
      match json_string (json_prop "method" p), json_string (json_prop "url" p),
            json_prop "headers" p with
      | Some m, Some u, Some (JObject hs) =>
          match json_headers hs, json_prop "body" p with
          | Some hs', None | Some hs', Some JNull =>
              Some {| id := i; payload := {| method := m; url := u; headers := hs'; body := None |} |}
          | Some hs', Some (JString b) =>
              Some {| id := i; payload := {| method := m; url := u; headers := hs'; body := Some b |} |}
          | _, _ => None
          end
      | _, _, _ => None
      end
  | _, _ => None
  end.

(** ** The connection manager *)

(** Platform functions the module calls: [JSON.parse] ([None] when it
    throws) and the [WebSocket] constructor ([Some msg] when it throws with
    that message). *)
Class Platform := {
  JSON_parse : string -> option Json;
  WebSocket_throws : string -> option string
}.

Section Service.

Context `{Platform}.

Definition updateStatus (newStatus : WebSocketProxyStatus) (details : option Detail)
    (w : World) : World :=
  if status_eqb (currentStatus w) newStatus && negb (bool_decide (is_Some details)) then w
  else
    let w := set_currentStatus newStatus w in
    let w := if onStatusChangeCallback w
             then log (ObserverCalled (currentStatus w) details) w else w in
    log (StatusLogged (currentStatus w) details) w.

Definition socket_send (k : nat) (message : WSClientSentMessage) (w : World) : World :=
  set_sockets
    (alter (fun o => {| ws_url := ws_url o; readyState := readyState o;
                        ws_sent := ws_sent o ++ [message];
                        ws_close_call := ws_close_call o |}) k (sockets w)) w.

Definition sendToServer (message : WSClientSentMessage) (w : World) : World :=
  match socket w with
  | Some k =>
      if bool_decide (ready_state w k = Some WS_OPEN)
      then log (Sent k message) (socket_send k message w)
      else log (SendDropped message) w
  | None => log (SendDropped message) w
  end.

Definition stopPing (w : World) : World :=
  match pingIntervalId w with
  | Some h => set_pingIntervalId None (clearInterval h w)
  | None => w
  end.

(** The interval callback. *)
Definition pingTick (w : World) : World := sendToServer WSPingMessage w.

Definition startPing (w : World) : World :=
  let w := stopPing w in
  let '(h, w) := setInterval PING_INTERVAL_MS w in
  set_pingIntervalId (Some h) w.

Definition onSocketOpen (w : World) : World :=
  let w := updateStatus CONNECTED None w in
  let w := set_currentReconnectDelay RECONNECT_INITIAL_DELAY_MS w in
  let w := match reconnectTimeoutId w with
           | Some h => set_reconnectTimeoutId None (clearTimeout h w)
           | None => w
           end in
  startPing w.

Definition onSocketMessage (data : string) (w : World) : World :=
  match JSON_parse data with
  | None => log (ParseFailed data) w
  | Some JNull => log (ParseFailed data) w
  | Some message =>
      match json_prop "type" message with
      | Some (JString ty) =>
          if String.eqb ty "http_request" then
            match asHttpRequest message with
            | Some req => log (Dispatched req) w
            | None => log (DispatchedUntyped message) w
            end
          else if String.eqb ty "pong" then w
          else log (UnknownType message) w
      | _ => log (UnknownType message) w
      end
  end.

Definition onSocketError (k : nat) (w : World) : World :=
  log (SocketErrorLogged k) w.

(** [socket.readyState === WS_OPEN || socket.readyState === WS_CONNECTING]
    on a non-null [socket]. *)
Definition socket_live (w : World) : bool :=
  match socket w with
  | Some k =>
      bool_decide (ready_state w k = Some WS_OPEN)
      || bool_decide (ready_state w k = Some WS_CONNECTING)
  | None => false
  end.

Definition new_WebSocket (wsUrl : string) : WebSocketObj :=
  {| ws_url := wsUrl; readyState := WS_CONNECTING; ws_sent := [];
     ws_close_call := None |}.

Definition wsUrl_of (jwtToken : string) : string :=
  BASE_WEBSOCKET_URL +:+ "?auth_token=" +:+ jwtToken.

(** [scheduleReconnect] up to the point where the timer callback is
    installed; the callback itself is [reconnectTimerCallback] below. *)
Definition scheduleReconnect (w : World) : World :=
  if explicitClose w || negb (truthy (currentJwtToken w)) then
    updateStatus IDLE
      (Some (DText "Reconnection not attempted (explicit close or no token).")) w
  else
    let w := match reconnectTimeoutId w with
             | Some h => clearTimeout h w
             | None => w
             end in
    let '(draw, w) := Math_random w in
    let base := currentReconnectDelay w in
    let w := updateStatus RECONNECTING (Some (DReconnectIn base draw)) w in
    let '(h, w) := setTimeout base draw w in
    let w := set_reconnectTimeoutId (Some h) w in
    set_currentReconnectDelay
      (Z.min (currentReconnectDelay w * 2) RECONNECT_MAX_DELAY_MS) w.

Definition connect (jwtToken : option string) (w : World) : World :=
  match jwtToken with
  | None | Some EmptyString =>
      updateStatus ERROR (Some (DText "JWT Token is required to connect.")) w
  | Some tok =>
      let w := set_currentJwtToken (Some tok) w in
      if socket_live w then log AlreadyConnected w
      else
        let w := set_explicitClose false w in
        let w := updateStatus CONNECTING None w in
        let wsUrl := wsUrl_of tok in
        match WebSocket_throws wsUrl with
        | Some msg =>
            let w := log (ConstructFailed wsUrl msg) w in
            let w := updateStatus ERROR (Some (DInstantiate msg)) w in
            scheduleReconnect w
        | None =>
            let k := length (sockets w) in
            let w := set_sockets (sockets w ++ [new_WebSocket wsUrl]) w in
            let w := log (Constructed k wsUrl) w in
            set_socket (Some k) w
        end
  end.

(** The callback given to [window.setTimeout] in [scheduleReconnect]. *)
Definition reconnectTimerCallback (w : World) : World :=
  let w := set_reconnectTimeoutId None w in
  if truthy (currentJwtToken w) then connect (currentJwtToken w) w
  else updateStatus IDLE
         (Some (DText "Reconnect aborted: JWT token became unavailable.")) w.

Definition onSocketClose (event : CloseEvent) (w : World) : World :=
  let w := stopPing w in
  match reconnectTimeoutId w with
  | Some _ => w
  | None =>
      let w :=
        if explicitClose w then
          let w := updateStatus IDLE (Some (DClosedByClient (ce_code event))) w in
          set_explicitClose false w
        else
          let reason := if String.eqb (ce_reason event) "" then "N/A"%string
                        else ce_reason event in
          let w := updateStatus DISCONNECTED (Some (DClosed (ce_code event) reason)) w in
          scheduleReconnect w in
      set_socket None w
  end.

(** [socket.close(code, reason)] on an open or connecting socket. *)
Definition socket_close (k : nat) (code : Z) (reason : string) (w : World) : World :=
  log (CloseCalled k code reason)
    (set_sockets
       (alter (fun o => {| ws_url := ws_url o; readyState := WS_CLOSING;
                           ws_sent := ws_sent o;
                           ws_close_call := Some (code, reason) |}) k (sockets w)) w).

Definition disconnect (w : World) : World :=
  let w := set_explicitClose true w in
  let w := set_currentJwtToken None w in
  let w := match reconnectTimeoutId w with
           | Some h => set_reconnectTimeoutId None (clearTimeout h w)
           | None => w
           end in
  let w := stopPing w in
  let w :=
    match socket w with
    | Some k =>
        if socket_live w
        then socket_close k 1000 "Client initiated disconnect" w
        else onSocketClose
               {| ce_code := 1000;
                  ce_reason := "Client initiated disconnect on non-open socket" |} w
    | None => updateStatus IDLE (Some (DText "Disconnected (no active socket).")) w
    end in
  set_socket None w.

Definition setOnStatusChange (callback : bool) (w : World) : World :=
  let w := set_onStatusChangeCallback callback w in
  if onStatusChangeCallback w then log (ObserverCalled (currentStatus w) None) w else w.

(** *** Events

    What can happen to the module: a call of one of its three exported
    functions, an event of a WebSocket it created (every such socket has
    the four handlers installed), or a timer firing. *)
Inductive Event :=
| CallConnect (jwtToken : option string)
| CallDisconnect
| CallSetOnStatusChange (callback : bool)
| SocketOpens (k : nat)
| SocketMessage (k : nat) (data : string)
| SocketError (k : nat)
| SocketClosing (k : nat)
| SocketCloses (k : nat) (event : CloseEvent)
| TimeoutFires (h : positive)
| IntervalFires (h : positive).

Definition mark (k : nat) (r : Z) (w : World) : World :=
  set_sockets (alter (set_readyState r) k (sockets w)) w.

(** One event; [None] when the browser cannot raise it in that state. *)
Definition step (w : World) (e : Event) : option World :=
  match e with
  | CallConnect jwtToken => Some (connect jwtToken w)
  | CallDisconnect => Some (disconnect w)
  | CallSetOnStatusChange callback => Some (setOnStatusChange callback w)
  | SocketOpens k =>
      if bool_decide (ready_state w k = Some WS_CONNECTING)
      then Some (onSocketOpen (mark k WS_OPEN w)) else None
  | SocketMessage k data =>
      if bool_decide (ready_state w k = Some WS_OPEN)
      then Some (onSocketMessage data w) else None
  | SocketError k =>
      match ready_state w k with
      | Some r => if r =? WS_CLOSED then None else Some (onSocketError k w)
      | None => None
      end
  | SocketClosing k =>
      if bool_decide (ready_state w k = Some WS_OPEN)
      then Some (mark k WS_CLOSING w) else None
  | SocketCloses k event =>
      match ready_state w k with
      | Some r => if r =? WS_CLOSED then None
                  else Some (onSocketClose event (mark k WS_CLOSED w))
      | None => None
      end
  | TimeoutFires h =>
      if bool_decide (h ∈ tm_handle <$> timeouts w)
      then Some (reconnectTimerCallback
                   (set_timeouts (filter (fun t => tm_handle t ≠ h) (timeouts w)) w))
      else None
  | IntervalFires h =>
      if bool_decide (h ∈ fst <$> intervals w)
      then Some (pingTick w) else None
  end.

Fixpoint run (w : World) (es : list Event) : option World :=
  match es with
  | [] => Some w
  | e :: es' =>
      match step w e with
      | Some w' => run w' es'
      | None => None
      end
  end.

End Service.

Arguments updateStatus : simpl never.

(** * The HTTP execution bridge: platform objects

    [handleHttpRequest] uses three platform objects besides [fetch]: [URL]
    with its [searchParams], [TextDecoder], and the [Response] it gets
    back.  Strings are sequences of bytes (the UTF-8 form of the
    JavaScript string). *)

(** ** [String.prototype.endsWith] *)

Definition endsWith (s suffix : string) : bool :=
  let n := String.length s in
  let m := String.length suffix in
  (m <=? n)%nat && String.eqb (substring (n - m) m s) suffix.

(** ** [application/x-www-form-urlencoded], as [URLSearchParams] uses it *)

Definition is_alphanumeric (c : ascii) : bool :=
  let n := N_of_ascii c in
  ((48 <=? n) && (n <=? 57) || (65 <=? n) && (n <=? 90) || (97 <=? n) && (n <=? 122))%N.

(** Bytes the serializer leaves as they are: alphanumerics and [*-._]. *)
Definition urlencoded_plain (c : ascii) : bool :=
  is_alphanumeric c
  || Ascii.eqb c "*" || Ascii.eqb c "-" || Ascii.eqb c "." || Ascii.eqb c "_".

Definition hex_digit (n : N) : ascii :=
  if (n <? 10)%N then ascii_of_N (48 + n) else ascii_of_N (55 + n).

Definition hex_value (c : ascii) : option N :=
  let n := N_of_ascii c in
  if ((48 <=? n) && (n <=? 57))%N then Some (n - 48)%N
  else if ((65 <=? n) && (n <=? 70))%N then Some (n - 55)%N
  else if ((97 <=? n) && (n <=? 102))%N then Some (n - 87)%N
  else None.

Definition urlencoded_byte (c : ascii) : string :=
  if Ascii.eqb c " " then "+"
  else if urlencoded_plain c then String c ""
  else String "%" (String (hex_digit (N_of_ascii c / 16))
                     (String (hex_digit (N_of_ascii c mod 16)) "")).

Fixpoint urlencoded_string (s : string) : string :=
  match s with
  | EmptyString => EmptyString
  | String c s' => urlencoded_byte c +:+ urlencoded_string s'
  end.

Fixpoint join_with (sep : string) (l : list string) : string :=
  match l with
  | [] => ""
  | [x] => x
  | x :: l' => x +:+ sep +:+ join_with sep l'
  end.

(** The serializer: [name=value] pairs joined by [&]. *)
Definition urlencoded_serialize (l : list (string * string)) : string :=
  join_with "&"
    (map (fun p => urlencoded_string (fst p) +:+ "=" +:+ urlencoded_string (snd p)) l).

Fixpoint percent_decode (s : string) : string :=
  match s with
  | EmptyString => EmptyString
  | String c rest =>
      if Ascii.eqb c "%" then
        match rest with
        | String a (String b rest') =>
            match hex_value a, hex_value b with
            | Some x, Some y => String (ascii_of_N (16 * x + y)) (percent_decode rest')
            | _, _ => String c (percent_decode rest)
            end
        | _ => String c (percent_decode rest)
        end
      else String c (percent_decode rest)
  end.

Fixpoint plus_to_space (s : string) : string :=
  match s with
  | EmptyString => EmptyString
  | String c s' => String (if Ascii.eqb c "+" then " "%char else c) (plus_to_space s')
  end.

(** Split at every occurrence of [sep]. *)
Fixpoint split_on (sep : ascii) (s : string) : list string :=
  match s with
  | EmptyString => [EmptyString]
  | String c s' =>
      if Ascii.eqb c sep then EmptyString :: split_on sep s'
      else match split_on sep s' with
           | x :: l => String c x :: l
           | [] => [String c EmptyString]
           end
  end.

(** Split at the first [=]; without one the value is empty. *)
Fixpoint split_pair (s : string) : string * string :=
  match s with
  | EmptyString => (EmptyString, EmptyString)
  | String c s' =>
      if Ascii.eqb c "=" then (EmptyString, s')
      else let (n, v) := split_pair s' in (String c n, v)
  end.

Definition urlencoded_component (s : string) : string :=
  percent_decode (plus_to_space s).

(** The parser: empty sequences are skipped. *)
Definition urlencoded_parse (input : string) : list (string * string) :=
  omap (fun seq =>
          match seq with
          | EmptyString => None
          | _ => let (n, v) := split_pair seq in
                 Some (urlencoded_component n, urlencoded_component v)
          end)
       (split_on "&" input).

(** ** [URL]

    A parsed URL: everything before the path in serialised form, the path,
    the query and the fragment. *)
Record URL := {
  url_prefix : string;
  pathname : string;
  url_query : option string;
  url_fragment : option string
}.

Definition searchParams (u : URL) : list (string * string) :=
  match url_query u with
  | Some q => urlencoded_parse q
  | None => []
  end.

Definition searchParams_has (name : string) (params : list (string * string)) : bool :=
  existsb (fun p => String.eqb (fst p) name) params.

(** [searchParams.delete(name)]: the pairs with that name go, and the
    query of the URL becomes the serialisation of the rest, or null when
    that is empty. *)
Definition searchParams_delete (name : string) (u : URL) : URL :=
  let rest := List.filter (fun p => negb (String.eqb (fst p) name)) (searchParams u) in
  let q := urlencoded_serialize rest in
  {| url_prefix := url_prefix u; pathname := pathname u;
     url_query := if String.eqb q "" then None else Some q;
     url_fragment := url_fragment u |}.

(** [url.toString()]. *)
Definition URL_toString (u : URL) : string :=
  url_prefix u +:+ pathname u
  +:+ match url_query u with Some q => "?" +:+ q | None => "" end
  +:+ match url_fragment u with Some f => "#" +:+ f | None => "" end.



(** ** [TextDecoder]

    The UTF-8 decoder of the Encoding standard in its default mode: errors
    become U+FFFD, and a byte order mark that begins the text is dropped. *)

Record Utf8State := {
  code_point : N;
  bytes_seen : N;
  bytes_needed : N;
  lower_boundary : N;
  upper_boundary : N
}.

Definition utf8_start : Utf8State :=
  {| code_point := 0; bytes_seen := 0; bytes_needed := 0;
     lower_boundary := 0x80; upper_boundary := 0xBF |}.

Definition REPLACEMENT : N := 0xFFFD.
Definition BOM : N := 0xFEFF.

Local Open Scope N_scope.

(** A byte read when no sequence is in progress. *)
Definition utf8_lead (b : N) : Utf8State * list N :=
  if b <=? 0x7F then (utf8_start, [b])
  else if (0xC2 <=? b) && (b <=? 0xDF) then
    ({| code_point := N.land b 0x1F; bytes_seen := 0; bytes_needed := 1;
        lower_boundary := 0x80; upper_boundary := 0xBF |}, [])
  else if (0xE0 <=? b) && (b <=? 0xEF) then
    ({| code_point := N.land b 0xF; bytes_seen := 0; bytes_needed := 2;
        lower_boundary := if b =? 0xE0 then 0xA0 else 0x80;
        upper_boundary := if b =? 0xED then 0x9F else 0xBF |}, [])
  else if (0xF0 <=? b) && (b <=? 0xF4) then
    ({| code_point := N.land b 0x7; bytes_seen := 0; bytes_needed := 3;
        lower_boundary := if b =? 0xF0 then 0x90 else 0x80;
        upper_boundary := if b =? 0xF4 then 0x8F else 0xBF |}, [])
  else (utf8_start, [REPLACEMENT]).

(** The handler for one byte.  A byte outside the expected range ends the
    sequence in progress with an error and is then read again as a lead
    byte. *)
Definition utf8_byte (st : Utf8State) (b : N) : Utf8State * list N :=
  if bytes_needed st =? 0 then utf8_lead b
  else if negb ((lower_boundary st <=? b) && (b <=? upper_boundary st)) then
    let (st', out) := utf8_lead b in (st', REPLACEMENT :: out)
  else
    let cp := N.lor (N.shiftl (code_point st) 6) (N.land b 0x3F) in
    if bytes_seen st + 1 =? bytes_needed st then (utf8_start, [cp])
    else ({| code_point := cp; bytes_seen := bytes_seen st + 1;
             bytes_needed := bytes_needed st;
             lower_boundary := 0x80; upper_boundary := 0xBF |}, []).

Fixpoint utf8_bytes (st : Utf8State) (bs : list N) : Utf8State * list N :=
  match bs with
  | [] => (st, [])
  | b :: bs' =>
      let (st1, out1) := utf8_byte st b in
      let (st2, out2) := utf8_bytes st1 bs' in
      (st2, out1 ++ out2)
  end.

(** The handler at the end of the input. *)
Definition utf8_end (st : Utf8State) : list N :=
  if bytes_needed st =? 0 then [] else [REPLACEMENT].

Local Close Scope N_scope.

Record TextDecoder := {
  td_utf8 : Utf8State;
  td_bom_seen : bool
}.

Definition new_TextDecoder : TextDecoder :=
  {| td_utf8 := utf8_start; td_bom_seen := false |}.

(** Writing out decoded code points: the first one written by the decoder
    is dropped when it is the byte order mark. *)
Definition serialize_output (bom_seen : bool) (out : list N) : list N * bool :=
  if bom_seen then (out, true)
  else match out with
       | [] => ([], false)
       | c :: rest => (if N.eqb c BOM then rest else c :: rest, true)
       end.

(** [decoder.decode(value, { stream: true })] on a [Uint8Array]. *)
Definition decode_stream (d : TextDecoder) (value : list Byte.byte) : text * TextDecoder :=
  let (st, out) := utf8_bytes (td_utf8 d) (map Byte.to_N value) in
  let (s, seen) := serialize_output (td_bom_seen d) out in
  (s, {| td_utf8 := st; td_bom_seen := seen |}).

(** [decoder.decode()]: the end of the input. *)
Definition decode_end (d : TextDecoder) : text :=
  fst (serialize_output (td_bom_seen d) (utf8_end (td_utf8 d))).


(** ** [fetch] and [Response] *)

Record RequestInit := {
  ri_method : string;
  ri_headers : list (string * string);
  ri_body : option string
}.

(** A value that is thrown or that a promise rejects with: an [Error] with
    its message, a [Response] with its status and what its [text()] gives
    ([None] when that rejects), or any other value with its [String(...)]
    form. *)
Inductive Thrown :=
| ThrownError (message : string)
| ThrownResponse (status : Z) (text_result : option string)
| ThrownOther (as_string : string).

(** How the reads of a body stream end. *)
Inductive ReadEnd :=
| ReadDone
| ReadRejects (e : Thrown).

(** The body of a response: a stream that delivers chunks through
    [getReader().read()], or no stream, in which case [text()] decides. *)
Inductive ResponseBody :=
| Streamed (chunks : list (list Byte.byte)) (ending : ReadEnd)
| Unstreamed (text_result : Thrown + string).

Record Response := {
  resp_status : Z;
  resp_headers : list (string * string);
  resp_body : ResponseBody
}.

(** The platform of the bridge: the [URL] parser ([None] when the
    constructor throws) and what [fetch] resolves or rejects with. *)
Class Web := {
  URL_parse : string -> option URL;
  fetch : string -> RequestInit -> Thrown + Response
}.

(** ** The bridge *)

(** What [handleHttpRequest] does, in order. *)
Inductive Call :=
| Fetched (u : string) (init : RequestInit)
| SentToServer (m : WSClientSentMessage)
| UrlModified (i : string) (u : string)
| UrlParseFailed (i : string) (u : string)
| FetchErrorLogged (i : string) (e : Thrown).

(** Computations that log calls and may throw. *)
Definition Async (A : Type) : Type := list Call * (Thrown + A).

Definition ret {A} (a : A) : Async A := ([], inr a).

Definition throw {A} (e : Thrown) : Async A := ([], inl e).

Definition bind {A B} (m : Async A) (k : A -> Async B) : Async B :=
  match m with
  | (l, inl e) => (l, inl e)
  | (l, inr a) => let (l', r) := k a in (l ++ l', r)
  end.

Definition call (c : Call) : Async unit := ([c], inr tt).

Definition try_catch {A} (m : Async A) (handler : Thrown -> Async A) : Async A :=
  match m with
  | (l, inl e) => let (l', r) := handler e in (l ++ l', r)
  | (l, inr a) => (l, inr a)
  end.

(** [await] of a promise that resolves or rejects. *)
Definition await {A} (p : Thrown + A) : Async A := ([], p).

#[export] Instance Async_ret : MRet Async := @ret.
#[export] Instance Async_bind : MBind Async := fun A B k m => bind m k.

(** The bridge's [sendToServer] calls are recorded; whether a frame then
    leaves depends on the socket at that moment, see [sendToServer]. *)
Definition send (m : WSClientSentMessage) : Async unit := call (SentToServer m).

(** [response.headers.forEach((value, key) => responseHeaders[key] = value)]. *)
Definition collect_headers (hs : list (string * string)) : gmap string string :=
  foldl (fun acc p => <[fst p := snd p]> acc) ∅ hs.

Section Bridge.

Context `{Web}.

(** Lines 64-77: the URL that is fetched. *)
Definition fetched_url (i method url : string) : Async string :=
  if String.eqb method "GET" then
    match URL_parse url with
    | Some parsedUrl =>
        if endsWith (pathname parsedUrl) "/v1beta/models"
           || endsWith (pathname parsedUrl) "/v1beta/models/"
        then
          if searchParams_has "key" (searchParams parsedUrl) then
            let url' := URL_toString (searchParams_delete "key" parsedUrl) in
            call (UrlModified i url');; ret url'
          else ret url
        else ret url
    | None => call (UrlParseFailed i url);; ret url
    end
  else ret url.

(** Lines 80-89. *)
Definition fetch_options (method : string) (headers : list (string * string))
    (body : option string) : RequestInit :=
  {| ri_method := method; ri_headers := headers;
     ri_body := if negb (String.eqb method "GET") && negb (String.eqb method "HEAD")
                then body else None |}.

(** Lines 112-123: the read loop. *)
Fixpoint read_loop (i : string) (decoder : TextDecoder) (chunks : list (list Byte.byte))
    (ending : ReadEnd) : Async TextDecoder :=
  match chunks with
  | [] =>
      match ending with
      | ReadDone => ret decoder
      | ReadRejects e => throw e
      end
  | value :: chunks' =>
      let (chunkData, decoder') := decode_stream decoder value in
      send (WSStreamChunkMessage i chunkData);;
      read_loop i decoder' chunks' ending
  end.

(** Lines 93-154: the body of the [try]. *)
Definition attempt (i url : string) (init : RequestInit) : Async unit :=
  call (Fetched url init);;
  response ← await (fetch url init);
  let responseHeaders := collect_headers (resp_headers response) in
  match resp_body response with
  | Streamed chunks ending =>
      send (WSStreamStartMessage i (resp_status response) responseHeaders);;
      decoder ← read_loop i new_TextDecoder chunks ending;
      let finalChunk := decode_end decoder in
      match finalChunk with
      | [] => ret tt
      | _ => send (WSStreamChunkMessage i finalChunk)
      end;;
      send (WSStreamEndMessage i)
  | Unstreamed text_result =>
      responseBodyText ← await text_result;
      send (WSHttpResponseMessage i (resp_status response) responseHeaders
              responseBodyText)
  end.

(** Lines 155-174: the [catch]. *)
Definition on_error (i : string) (error : Thrown) : Async unit :=
  call (FetchErrorLogged i error);;
  let message := match error with
                 | ThrownError message => message
                 | ThrownResponse _ _ => "[object Response]"%string
                 | ThrownOther s => s
                 end in
  match error with
  | ThrownResponse status text_result =>
      if negb (status =? 0) then
        let b := match text_result with
                 | Some t => t
                 | None => "Could not read error body"%string
                 end in
        send (WSErrorMessage i "HTTP_ERROR" message
                (Some {| ehr_status := status; ehr_headers := ∅; ehr_body := b |}))
      else send (WSErrorMessage i "FETCH_ERROR" message None)
  | _ => send (WSErrorMessage i "FETCH_ERROR" message None)
  end.

Definition handleHttpRequest (request : WSHttpRequestMessage) : Async unit :=
  let i := id request in
  let p := payload request in
  url' ← fetched_url i (method p) (url p);
  let fetchOptions := fetch_options (method p) (headers p) (body p) in
  try_catch (attempt i url' fetchOptions) (on_error i).

(** The URL [handleHttpRequest] passes to [fetch]. *)
Definition executed_url (request : WSHttpRequestMessage) : string :=
  let p := payload request in
  match fetched_url (id request) (method p) (url p) with
  | (_, inr u) => u
  | (_, inl _) => url p
  end.

End Bridge.

(** The messages among the calls, in order. *)
Definition sent_messages (l : list Call) : list WSClientSentMessage :=
  omap (fun c => match c with SentToServer m => Some m | _ => None end) l.

(** The [fetch] calls among the calls, in order. *)
Definition fetch_calls (l : list Call) : list (string * RequestInit) :=
  omap (fun c => match c with Fetched u init => Some (u, init) | _ => None end) l.

(** * Properties stated about the connection manager *)

(** What [updateStatus] appends to the trace: nothing when the status is
    the current one and no detail is given. *)
Definition status_trace (w : World) (s : WebSocketProxyStatus) (d : option Detail)
    : list Effect :=
  if status_eqb (currentStatus w) s && negb (bool_decide (is_Some d)) then []
  else (if onStatusChangeCallback w then [ObserverCalled s d] else [])
       ++ [StatusLogged s d].

(** [updateStatus] as one record update. *)
Definition report (s : WebSocketProxyStatus) (l : list Effect) (w : World) : World :=
  {| socket := socket w; currentStatus := s;
     onStatusChangeCallback := onStatusChangeCallback w;
     pingIntervalId := pingIntervalId w; reconnectTimeoutId := reconnectTimeoutId w;
     currentReconnectDelay := currentReconnectDelay w; explicitClose := explicitClose w;
     currentJwtToken := currentJwtToken w; sockets := sockets w;
     timeouts := timeouts w; intervals := intervals w; next_handle := next_handle w;
     random_calls := random_calls w; trace := trace w ++ l |}.



(** The browser's table of pending timeouts holds exactly the timer the
    module remembers. *)
Definition timers_ok (w : World) : Prop :=
  match reconnectTimeoutId w with
  | Some h => exists t, timeouts w = [t] /\ tm_handle t = h
  | None => timeouts w = []
  end.

(** The browser's table of intervals holds exactly the keep-alive loop the
    module remembers, with the keep-alive period. *)
Definition intervals_ok (w : World) : Prop :=
  match pingIntervalId w with
  | Some h => intervals w = [(h, PING_INTERVAL_MS)]
  | None => intervals w = []
  end.

Definition in_backoff_range (d : Z) : Prop :=
  RECONNECT_INITIAL_DELAY_MS <= d <= RECONNECT_MAX_DELAY_MS.

(** [socket] refers to a WebSocket that was constructed. *)
Definition socket_ok (w : World) : Prop :=
  match socket w with
  | Some k => (k < length (sockets w))%nat
  | None => True
  end.

(** The bases of all [setTimeout] calls recorded in a trace. *)
Definition scheduled_bases (tr : list Effect) : list Z :=
  omap (fun e => match e with TimeoutSet t => Some (tm_base t) | _ => None end) tr.

Record Inv (w : World) : Prop := {
  inv_timers : timers_ok w;
  inv_intervals : intervals_ok w;
  inv_delay : in_backoff_range (currentReconnectDelay w);
  inv_scheduled : Forall in_backoff_range (scheduled_bases (trace w));
  inv_socket : socket_ok w
}.

(** The i-th value of the backoff sequence, counted from 0. *)
Definition backoff (i : nat) : Z :=
  Z.min (RECONNECT_INITIAL_DELAY_MS * 2 ^ Z.of_nat i) RECONNECT_MAX_DELAY_MS.

(** The state between two reconnect attempts of a session that keeps
    failing: no timer pending, the close not requested, a token stored. *)
Definition retrying (tok : string) (i : nat) (w : World) : Prop :=
  currentReconnectDelay w = backoff i
  /\ explicitClose w = false
  /\ reconnectTimeoutId w = None
  /\ currentJwtToken w = Some tok.

(** [n] failed attempts: each time some socket closes and then the
    reconnect timeout fires. *)
Fixpoint failed_attempts (cs : list (nat * CloseEvent * positive)) : list Event :=
  match cs with
  | [] => []
  | (k, event, h) :: cs' => SocketCloses k event :: TimeoutFires h :: failed_attempts cs'
  end.


(** Whether the keep-alive loop runs after the events [es], given whether
    it ran before: a socket opening starts it, a socket closing and a
    [disconnect] call stop it, nothing else touches it. *)
Definition keepalive_after (running : bool) (es : list Event) : bool :=
  foldl (fun b e => match e with
                    | SocketOpens _ => true
                    | SocketCloses _ _ | CallDisconnect => false
                    | _ => b
                    end) running es.

Definition keepalive_running (w : World) : bool :=
  bool_decide (is_Some (pingIntervalId w)).

(** Events other than a [connect] call that carries a token. *)
Definition no_connect_call (e : Event) : Prop :=
  match e with
  | CallConnect jwtToken => truthy jwtToken = false
  | _ => True
  end.

(** The status most recently passed to the observer, if any. *)
Definition last_observed (tr : list Effect) : option WebSocketProxyStatus :=
  foldl (fun acc e => match e with ObserverCalled s _ => Some s | _ => acc end) None tr.

(** The registered observer has been told the current status. *)
Definition observer_informed (w : World) : Prop :=
  onStatusChangeCallback w = true -> last_observed (trace w) = Some (currentStatus w).

(** No token stored and no reconnect timeout pending. *)
Definition stopped (w : World) : Prop :=
  Inv w /\ truthy (currentJwtToken w) = false /\ reconnectTimeoutId w = None.


(** * Properties stated about the bridge *)

(** The texts [decode_stream] returns for the chunks of a body, and the
    decoder after the last one. *)
Fixpoint decode_chunks (d : TextDecoder) (chunks : list (list Byte.byte))
    : list text * TextDecoder :=
  match chunks with
  | [] => ([], d)
  | value :: chunks' =>
      let (chunkData, d') := decode_stream d value in
      let (ts, d'') := decode_chunks d' chunks' in
      (chunkData :: ts, d'')
  end.


(** The error message the [catch] block builds. *)
Definition error_message (i : string) (error : Thrown) : WSClientSentMessage :=
  match error with
  | ThrownError message => WSErrorMessage i "FETCH_ERROR" message None
  | ThrownOther s => WSErrorMessage i "FETCH_ERROR" s None
  | ThrownResponse status text_result =>
      if status =? 0 then WSErrorMessage i "FETCH_ERROR" "[object Response]" None
      else WSErrorMessage i "HTTP_ERROR" "[object Response]"
             (Some {| ehr_status := status; ehr_headers := ∅;
                      ehr_body := match text_result with
                                  | Some t => t
                                  | None => "Could not read error body"%string
                                  end |})
  end.

(** The final [stream_chunk], sent when the decoder still held part of a
    character. *)
Definition final_chunk (i : string) (d : TextDecoder) : list WSClientSentMessage :=
  match decode_end d with
  | [] => []
  | t => [WSStreamChunkMessage i t]
  end.

(** The messages a command must produce, given what [fetch] did. *)
Definition result_messages (i : string) (r : Thrown + Response)
    : list WSClientSentMessage :=
  match r with
  | inl e => [error_message i e]
  | inr response =>
      let hs := collect_headers (resp_headers response) in
      match resp_body response with
      | Streamed chunks ending =>
          let (ts, d) := decode_chunks new_TextDecoder chunks in
          WSStreamStartMessage i (resp_status response) hs
          :: map (WSStreamChunkMessage i) ts
          ++ match ending with
             | ReadDone => final_chunk i d ++ [WSStreamEndMessage i]
             | ReadRejects e => [error_message i e]
             end
      | Unstreamed (inr t) => [WSHttpResponseMessage i (resp_status response) hs t]
      | Unstreamed (inl e) => [error_message i e]
      end
  end.

(** * Facts about the connection manager *)

(** The trace an [updateStatus] call with a detail appends. *)
Definition status_effects (w : World) (s : WebSocketProxyStatus) (d : option Detail)
    : list Effect :=
  (if onStatusChangeCallback w then [ObserverCalled s d] else []) ++ [StatusLogged s d].

(** [updateStatus] writes the status field and the trace, nothing else. *)
Lemma updateStatus_status s d w : currentStatus (updateStatus s d w) = s.
Proof.
  unfold updateStatus.
  destruct (status_eqb (currentStatus w) s) eqn:E, d; cbn;
    try (destruct (onStatusChangeCallback w); reflexivity).
  destruct (currentStatus w), s; cbn in E; congruence.
Qed.

Lemma updateStatus_trace s (d : Detail) w :
  trace (updateStatus s (Some d) w) = trace w ++ status_effects w s (Some d).
Proof.
  unfold updateStatus, status_effects.
  rewrite bool_decide_eq_true_2 by (by eexists). rewrite andb_false_r.
  cbn. destruct (onStatusChangeCallback w); cbn; rewrite <- ?app_assoc; reflexivity.
Qed.

Ltac updateStatus_frame :=
  intros; unfold updateStatus;
  repeat (cbn; match goal with
               | |- context [if ?b then _ else _] => destruct b eqn:?
               end);
  cbn; congruence.

Lemma updateStatus_socket s d w : socket (updateStatus s d w) = socket w.
Proof. updateStatus_frame. Qed.
Lemma updateStatus_sockets s d w : sockets (updateStatus s d w) = sockets w.
Proof. updateStatus_frame. Qed.
Lemma updateStatus_callback s d w :
  onStatusChangeCallback (updateStatus s d w) = onStatusChangeCallback w.
Proof. updateStatus_frame. Qed.
Lemma updateStatus_ping s d w : pingIntervalId (updateStatus s d w) = pingIntervalId w.
Proof. updateStatus_frame. Qed.
Lemma updateStatus_timer s d w :
  reconnectTimeoutId (updateStatus s d w) = reconnectTimeoutId w.
Proof. updateStatus_frame. Qed.
Lemma updateStatus_delay s d w :
  currentReconnectDelay (updateStatus s d w) = currentReconnectDelay w.
Proof. updateStatus_frame. Qed.
Lemma updateStatus_explicit s d w : explicitClose (updateStatus s d w) = explicitClose w.
Proof. updateStatus_frame. Qed.
Lemma updateStatus_token s d w : currentJwtToken (updateStatus s d w) = currentJwtToken w.
Proof. updateStatus_frame. Qed.
Lemma updateStatus_timeouts s d w : timeouts (updateStatus s d w) = timeouts w.
Proof. updateStatus_frame. Qed.
Lemma updateStatus_intervals s d w : intervals (updateStatus s d w) = intervals w.
Proof. updateStatus_frame. Qed.
Lemma updateStatus_next_handle s d w : next_handle (updateStatus s d w) = next_handle w.
Proof. updateStatus_frame. Qed.
Lemma updateStatus_random s d w : random_calls (updateStatus s d w) = random_calls w.
Proof. updateStatus_frame. Qed.

Create Rewrite HintDb world.
#[export] Hint Rewrite updateStatus_status updateStatus_trace updateStatus_socket
  updateStatus_sockets updateStatus_callback updateStatus_ping updateStatus_timer
  updateStatus_delay updateStatus_explicit updateStatus_token updateStatus_timeouts
  updateStatus_intervals updateStatus_next_handle updateStatus_random : world.


(** The timer primitives write only the timer tables and the trace. *)

Lemma clearTimeout_socket h w : socket (clearTimeout h w) = socket w.
Proof. reflexivity. Qed.
Lemma clearTimeout_currentStatus h w : currentStatus (clearTimeout h w) = currentStatus w.
Proof. reflexivity. Qed.
Lemma clearTimeout_onStatusChangeCallback h w : onStatusChangeCallback (clearTimeout h w) = onStatusChangeCallback w.
Proof. reflexivity. Qed.
Lemma clearTimeout_pingIntervalId h w : pingIntervalId (clearTimeout h w) = pingIntervalId w.
Proof. reflexivity. Qed.
Lemma clearTimeout_reconnectTimeoutId h w : reconnectTimeoutId (clearTimeout h w) = reconnectTimeoutId w.
Proof. reflexivity. Qed.
Lemma clearTimeout_currentReconnectDelay h w : currentReconnectDelay (clearTimeout h w) = currentReconnectDelay w.
Proof. reflexivity. Qed.
Lemma clearTimeout_explicitClose h w : explicitClose (clearTimeout h w) = explicitClose w.
Proof. reflexivity. Qed.
Lemma clearTimeout_currentJwtToken h w : currentJwtToken (clearTimeout h w) = currentJwtToken w.
Proof. reflexivity. Qed.
Lemma clearTimeout_sockets h w : sockets (clearTimeout h w) = sockets w.
Proof. reflexivity. Qed.
Lemma clearTimeout_intervals h w : intervals (clearTimeout h w) = intervals w.
Proof. reflexivity. Qed.
Lemma clearTimeout_next_handle h w : next_handle (clearTimeout h w) = next_handle w.
Proof. reflexivity. Qed.
Lemma clearTimeout_random_calls h w : random_calls (clearTimeout h w) = random_calls w.
Proof. reflexivity. Qed.
Lemma clearInterval_socket h w : socket (clearInterval h w) = socket w.
Proof. reflexivity. Qed.
Lemma clearInterval_currentStatus h w : currentStatus (clearInterval h w) = currentStatus w.
Proof. reflexivity. Qed.
Lemma clearInterval_onStatusChangeCallback h w : onStatusChangeCallback (clearInterval h w) = onStatusChangeCallback w.
Proof. reflexivity. Qed.
Lemma clearInterval_pingIntervalId h w : pingIntervalId (clearInterval h w) = pingIntervalId w.
Proof. reflexivity. Qed.
Lemma clearInterval_reconnectTimeoutId h w : reconnectTimeoutId (clearInterval h w) = reconnectTimeoutId w.
Proof. reflexivity. Qed.
Lemma clearInterval_currentReconnectDelay h w : currentReconnectDelay (clearInterval h w) = currentReconnectDelay w.
Proof. reflexivity. Qed.
Lemma clearInterval_explicitClose h w : explicitClose (clearInterval h w) = explicitClose w.
Proof. reflexivity. Qed.
Lemma clearInterval_currentJwtToken h w : currentJwtToken (clearInterval h w) = currentJwtToken w.
Proof. reflexivity. Qed.
Lemma clearInterval_sockets h w : sockets (clearInterval h w) = sockets w.
Proof. reflexivity. Qed.
Lemma clearInterval_timeouts h w : timeouts (clearInterval h w) = timeouts w.
Proof. reflexivity. Qed.
Lemma clearInterval_next_handle h w : next_handle (clearInterval h w) = next_handle w.
Proof. reflexivity. Qed.
Lemma clearInterval_random_calls h w : random_calls (clearInterval h w) = random_calls w.
Proof. reflexivity. Qed.

Lemma clearTimeout_timeouts h w :
  timeouts (clearTimeout h w) = filter (fun t => tm_handle t ≠ h) (timeouts w).
Proof. reflexivity. Qed.
Lemma clearTimeout_trace h w : trace (clearTimeout h w) = trace w ++ [TimeoutCleared h].
Proof. reflexivity. Qed.
Lemma clearInterval_intervals h w :
  intervals (clearInterval h w) = filter (fun p => fst p ≠ h) (intervals w).
Proof. reflexivity. Qed.
Lemma clearInterval_trace h w : trace (clearInterval h w) = trace w ++ [IntervalCleared h].
Proof. reflexivity. Qed.

#[export] Hint Rewrite clearTimeout_socket clearTimeout_currentStatus
  clearTimeout_onStatusChangeCallback clearTimeout_pingIntervalId
  clearTimeout_reconnectTimeoutId clearTimeout_currentReconnectDelay
  clearTimeout_explicitClose clearTimeout_currentJwtToken clearTimeout_sockets
  clearTimeout_intervals clearTimeout_next_handle clearTimeout_random_calls
  clearInterval_socket clearInterval_currentStatus clearInterval_onStatusChangeCallback
  clearInterval_pingIntervalId clearInterval_reconnectTimeoutId
  clearInterval_currentReconnectDelay clearInterval_explicitClose
  clearInterval_currentJwtToken clearInterval_sockets clearInterval_timeouts
  clearInterval_next_handle clearInterval_random_calls clearTimeout_timeouts
  clearTimeout_trace clearInterval_intervals clearInterval_trace : world.

Arguments clearTimeout : simpl never.
Arguments clearInterval : simpl never.

(** Normalise field reads of a state built by the handlers. *)
Ltac fields := repeat (progress (cbn; autorewrite with world)).

(** Full evaluation of the record operations; used on states whose fields
    are explicit. *)
Ltac norm :=
  cbv beta iota zeta delta
    [socket currentStatus onStatusChangeCallback pingIntervalId reconnectTimeoutId
     currentReconnectDelay explicitClose currentJwtToken sockets timeouts intervals
     next_handle random_calls trace
     set_socket set_currentStatus set_onStatusChangeCallback set_pingIntervalId
     set_reconnectTimeoutId set_currentReconnectDelay set_explicitClose
     set_currentJwtToken set_sockets set_timeouts set_intervals set_next_handle
     set_random_calls log clearTimeout clearInterval setTimeout setInterval
     Math_random stopPing startPing ready_state socket_live mark socket_send
     socket_close].

Lemma updateStatus_eq s d w :
  updateStatus s d w
  = {| socket := socket w; currentStatus := s;
       onStatusChangeCallback := onStatusChangeCallback w;
       pingIntervalId := pingIntervalId w; reconnectTimeoutId := reconnectTimeoutId w;
       currentReconnectDelay := currentReconnectDelay w; explicitClose := explicitClose w;
       currentJwtToken := currentJwtToken w; sockets := sockets w;
       timeouts := timeouts w; intervals := intervals w; next_handle := next_handle w;
       random_calls := random_calls w; trace := trace w ++ status_trace w s d |}.
Proof.
  destruct w as [sk st cb pi rt dl ec tk sks tms ivs nh rc tr].
  unfold updateStatus, status_trace. norm.
  destruct (status_eqb st s && negb (bool_decide (is_Some d))) eqn:E.
  - apply andb_true_iff in E as [E _]. rewrite app_nil_r.
    destruct st, s; try discriminate E; reflexivity.
  - destruct cb; cbn; rewrite <- ?app_assoc; reflexivity.
Qed.

Section ServiceFacts.

Context `{Platform}.

(** ** C7 *)

(** C7: [connect] called with an empty or missing token, in any state,
    sets the status to [ERROR], reports the detail "JWT Token is required
    to connect.", and touches nothing else: no WebSocket is constructed,
    the current socket, the stored token, the flag and the timers are as
    before. *)
Theorem connect_requires_token (w : World) (jwtToken : option string) :
  truthy jwtToken = false ->
  let d := Some (DText "JWT Token is required to connect.") in
  let w' := connect jwtToken w in
  currentStatus w' = ERROR
  /\ trace w' = trace w ++ status_effects w ERROR d
  /\ sockets w' = sockets w
  /\ socket w' = socket w
  /\ currentJwtToken w' = currentJwtToken w
  /\ explicitClose w' = explicitClose w
  /\ timeouts w' = timeouts w
  /\ reconnectTimeoutId w' = reconnectTimeoutId w.
Proof.
  intros Hf d w'. subst w' d.
  assert (connect jwtToken w
          = updateStatus ERROR (Some (DText "JWT Token is required to connect.")) w) as ->.
  { destruct jwtToken as [[|c s]|]; cbn in Hf; try discriminate; reflexivity. }
  fields. repeat split; reflexivity.
Qed.


(** ** C8 *)

(** The frames [onSocketMessage] acts on: a value whose [type] is the
    string [http_request] or [pong]. *)
Definition recognised (message : Json) : bool :=
  match json_prop "type" message with
  | Some (JString ty) => String.eqb ty "http_request" || String.eqb ty "pong"
  | _ => false
  end.

(** C8: a frame that [JSON.parse] rejects, and a parsed frame whose [type]
    is neither [http_request] nor [pong], only adds one console entry: the
    status, the current socket, every WebSocket object (state, frames sent,
    close calls) and the timers are unchanged, so the connection is not
    closed and nothing is sent or dispatched. *)
Theorem unrecognised_frame_dropped (w : World) (k : nat) (data : string) :
  ready_state w k = Some WS_OPEN ->
  (JSON_parse data = None
   \/ exists message, JSON_parse data = Some message /\ recognised message = false) ->
  exists e,
    step w (SocketMessage k data) = Some (log e w)
    /\ (e = ParseFailed data \/ exists message, e = UnknownType message)
    /\ currentStatus (log e w) = currentStatus w
    /\ socket (log e w) = socket w
    /\ sockets (log e w) = sockets w
    /\ timeouts (log e w) = timeouts w
    /\ intervals (log e w) = intervals w
    /\ trace (log e w) = trace w ++ [e].
Proof.
  intros Hopen Hbad. cbn [step].
  rewrite bool_decide_eq_true_2 by assumption.
  assert (exists e, onSocketMessage data w = log e w
                    /\ (e = ParseFailed data \/ exists message, e = UnknownType message))
    as (e & -> & He).
  { unfold onSocketMessage.
    destruct Hbad as [-> | (message & -> & Hrec)]; [eauto|].
    unfold recognised in Hrec.
    destruct message as [| b | n | s | items | fields]; eauto;
      cbn in Hrec |- *.
    destruct (lookup_field "type" fields) as [[| b | n | ty | items | fs]|]; eauto.
    apply orb_false_elim in Hrec as [-> ->]. eauto. }
  exists e. repeat split; try reflexivity; assumption.
Qed.

(** ** C9 *)

(** C9: [disconnect] called while the current socket is absent, closing or
    closed returns a state with status [IDLE] and no current socket; no
    WebSocket is constructed or altered.  The function is total: no path
    through it raises. *)


Theorem disconnect_when_not_connected (w : World) :
  socket_live w = false ->
  let w' := disconnect w in
  currentStatus w' = IDLE
  /\ socket w' = None
  /\ sockets w' = sockets w
  /\ reconnectTimeoutId w' = None
  /\ pingIntervalId w' = None.
Proof.
  intros Hlive w'. subst w'.
  destruct w as [sk st cb pi rt dl ec tk sks tms ivs nh rc tr].
  destruct rt as [h|], pi as [h'|], sk as [k|];
    revert Hlive; unfold disconnect, onSocketClose; norm; intros Hlive;
    rewrite ?Hlive; rewrite ?updateStatus_eq; norm; repeat split; reflexivity.
Qed.

End ServiceFacts.


(** * Invariants of the connection manager *)

Lemma filter_handle_single (t : Timeout) :
  filter (fun t' => tm_handle t' ≠ tm_handle t) [t] = [].
Proof.
  rewrite filter_cons. destruct (decide (tm_handle t ≠ tm_handle t)); [congruence|].
  reflexivity.
Qed.

Lemma filter_interval_single (h : positive) (p : Z) :
  filter (fun q : positive * Z => fst q ≠ h) [(h, p)] = [].
Proof.
  rewrite filter_cons. cbn. destruct (decide (h ≠ h)); [congruence|]. reflexivity.
Qed.

Lemma scheduled_bases_app tr1 tr2 :
  scheduled_bases (tr1 ++ tr2) = scheduled_bases tr1 ++ scheduled_bases tr2.
Proof. apply omap_app. Qed.

Lemma scheduled_bases_status_trace w s d : scheduled_bases (status_trace w s d) = [].
Proof.
  unfold status_trace.
  destruct (status_eqb _ _ && _); [reflexivity|].
  destruct (onStatusChangeCallback w); reflexivity.
Qed.

Lemma backoff_next_in_range d :
  in_backoff_range d -> in_backoff_range (Z.min (d * 2) RECONNECT_MAX_DELAY_MS).
Proof.
  unfold in_backoff_range, RECONNECT_INITIAL_DELAY_MS, RECONNECT_MAX_DELAY_MS. lia.
Qed.

Lemma backoff_floor_in_range : in_backoff_range RECONNECT_INITIAL_DELAY_MS.
Proof.
  unfold in_backoff_range, RECONNECT_INITIAL_DELAY_MS, RECONNECT_MAX_DELAY_MS. lia.
Qed.

Lemma updateStatus_report s d w :
  updateStatus s d w = report s (status_trace w s d) w.
Proof. apply updateStatus_eq. Qed.

Ltac eval_records :=
  cbv beta iota zeta delta
    [socket currentStatus onStatusChangeCallback pingIntervalId reconnectTimeoutId
     currentReconnectDelay explicitClose currentJwtToken sockets timeouts intervals
     next_handle random_calls trace
     set_socket set_currentStatus set_onStatusChangeCallback set_pingIntervalId
     set_reconnectTimeoutId set_currentReconnectDelay set_explicitClose
     set_currentJwtToken set_sockets set_timeouts set_intervals set_next_handle
     set_random_calls log clearTimeout clearInterval setTimeout setInterval
     Math_random stopPing startPing ready_state socket_live mark socket_send
     socket_close report truthy orb negb andb].

Ltac eval_handlers :=
  cbv zeta; rewrite ?updateStatus_report; eval_records;
  repeat (progress rewrite ?updateStatus_report; eval_records).

(** Case analysis on a state: every field that decides a branch becomes a
    constructor before anything is unfolded. *)
Ltac open_inv w HI :=
  destruct HI as [I1 I2 I3 I4 I5];
  destruct w as [sk st cb pi rt dl ec tk sks tms ivs nh rc tr];
  unfold timers_ok, intervals_ok, socket_ok in I1, I2, I5;
  cbn in I1, I2, I3, I4, I5;
  destruct rt as [h|], pi as [h'|], sk as [k|];
  try destruct I1 as (t & -> & <-);
  subst.

Ltac close_inv :=
  rewrite ?filter_handle_single, ?filter_interval_single;
  split; unfold timers_ok, intervals_ok, socket_ok; norm;
  rewrite ?scheduled_bases_app, ?scheduled_bases_status_trace, ?app_nil_r,
    ?length_alter, ?length_app;
  repeat match goal with
         | |- Forall _ (scheduled_bases [_]) => cbn
         | |- Forall _ (_ ++ _) => apply Forall_app_2
         | |- Forall _ [_] => apply Forall_cons_2; [|apply Forall_nil_2]
         | |- Forall _ [] => apply Forall_nil_2
         end;
  eauto using backoff_next_in_range, backoff_floor_in_range;
  try (cbn; lia).

Section Invariants.

Context `{Platform}.

Lemma Inv_initial : Inv initial.
Proof.
  split; cbn; auto using backoff_floor_in_range.
Qed.

Lemma Inv_disconnect w : Inv w -> Inv (disconnect w).
Proof.
  intros HI. open_inv w HI;
    unfold disconnect, onSocketClose; cbv zeta;
    try destruct (socket_live _) eqn:Hlive;
    eval_handlers; close_inv.
Qed.

Lemma Inv_connect tok w : Inv w -> Inv (connect tok w).
Proof.
  intros HI. open_inv w HI;
    destruct tok as [[|c s]|]; unfold connect, scheduleReconnect; cbv zeta;
    try destruct (socket_live _) eqn:Hlive;
    try destruct (WebSocket_throws _) eqn:Hctor;
    eval_handlers; close_inv.
Qed.

Lemma Inv_log e w :
  (forall t, e <> TimeoutSet t) -> Inv w -> Inv (log e w).
Proof.
  intros He [I1 I2 I3 I4 I5]. split; try assumption.
  cbn. rewrite scheduled_bases_app. apply Forall_app_2; [assumption|].
  destruct e; cbn; try apply Forall_nil_2. exfalso. eapply He; reflexivity.
Qed.

Lemma Inv_setOnStatusChange callback w : Inv w -> Inv (setOnStatusChange callback w).
Proof.
  intros HI. unfold setOnStatusChange. destruct callback; cbn.
  - apply Inv_log; [discriminate|]. destruct HI; split; assumption.
  - destruct HI; split; assumption.
Qed.

Lemma onSocketMessage_cases data w :
  onSocketMessage data w = w
  \/ exists e, onSocketMessage data w = log e w /\ forall t, e <> TimeoutSet t.
Proof.
  unfold onSocketMessage.
  destruct (JSON_parse data) as [[| b | n | s | items | fields]|];
    try (right; eexists; split; [reflexivity|discriminate]).
  cbn. destruct (lookup_field "type" fields) as [[| b | n | ty | items | fs]|];
    try (right; eexists; split; [reflexivity|discriminate]).
  destruct (String.eqb ty "http_request").
  - destruct (asHttpRequest _); right; eexists; (split; [reflexivity|discriminate]).
  - destruct (String.eqb ty "pong"); [left; reflexivity|].
    right; eexists; split; [reflexivity|discriminate].
Qed.

Lemma Inv_onSocketMessage data w : Inv w -> Inv (onSocketMessage data w).
Proof.
  intros HI. destruct (onSocketMessage_cases data w) as [-> | (e & -> & He)];
    [assumption|]. apply Inv_log; assumption.
Qed.

Lemma Inv_mark k r w : Inv w -> Inv (mark k r w).
Proof.
  intros [I1 I2 I3 I4 I5]. split; try assumption.
  unfold socket_ok, mark in *. cbn. rewrite length_alter. assumption.
Qed.

Lemma Inv_sendToServer m w : Inv w -> Inv (sendToServer m w).
Proof.
  intros HI. unfold sendToServer.
  destruct (socket w) as [k|]; [|apply Inv_log; [discriminate|assumption]].
  destruct (bool_decide _); apply Inv_log; try discriminate; try assumption.
  destruct HI as [I1 I2 I3 I4 I5]. split; try assumption.
  unfold socket_ok, socket_send in *. cbn. rewrite length_alter. assumption.
Qed.

Lemma Inv_onSocketOpen w : Inv w -> Inv (onSocketOpen w).
Proof.
  intros HI. open_inv w HI; unfold onSocketOpen; eval_handlers; close_inv.
Qed.

Lemma Inv_onSocketClose event w : Inv w -> Inv (onSocketClose event w).
Proof.
  intros HI. open_inv w HI; destruct ec, tk as [[|c s]|];
    unfold onSocketClose, scheduleReconnect; eval_handlers; close_inv.
Qed.

Lemma Inv_timeout_fires h w :
  Inv w -> h ∈ tm_handle <$> timeouts w ->
  Inv (reconnectTimerCallback
         (set_timeouts (filter (fun t => tm_handle t ≠ h) (timeouts w)) w)).
Proof.
  intros HI Hin.
  assert (Inv (set_reconnectTimeoutId None
                 (set_timeouts (filter (fun t => tm_handle t ≠ h) (timeouts w)) w))) as HI'.
  { destruct HI as [I1 I2 I3 I4 I5]. split; try assumption.
    unfold timers_ok in *. cbn.
    destruct (reconnectTimeoutId w) as [h0|].
    - destruct I1 as (t & Ht & <-). rewrite Ht in Hin |- *.
      apply list_elem_of_singleton in Hin. subst h. apply filter_handle_single.
    - rewrite I1. reflexivity. }
  unfold reconnectTimerCallback. cbv zeta.
  set (w1 := set_reconnectTimeoutId None _) in *.
  destruct (truthy (currentJwtToken w1)).
  - apply Inv_connect. assumption.
  - revert HI'. generalize w1. clear. intros w HI.
    open_inv w HI; eval_handlers; close_inv.
Qed.

Lemma Inv_step w e w' : Inv w -> step w e = Some w' -> Inv w'.
Proof.
  intros HI Hs. destruct e; cbn in Hs.
  - injection Hs as <-. apply Inv_connect. assumption.
  - injection Hs as <-. apply Inv_disconnect. assumption.
  - injection Hs as <-. apply Inv_setOnStatusChange. assumption.
  - destruct (bool_decide _); [|discriminate]. injection Hs as <-.
    apply Inv_onSocketOpen, Inv_mark. assumption.
  - destruct (bool_decide _); [|discriminate]. injection Hs as <-.
    apply Inv_onSocketMessage. assumption.
  - destruct (ready_state w k) as [r|]; [|discriminate].
    destruct (r =? WS_CLOSED); [discriminate|]. injection Hs as <-.
    apply Inv_log; [discriminate|assumption].
  - destruct (bool_decide _); [|discriminate]. injection Hs as <-.
    apply Inv_mark. assumption.
  - destruct (ready_state w k) as [r|]; [|discriminate].
    destruct (r =? WS_CLOSED); [discriminate|]. injection Hs as <-.
    apply Inv_onSocketClose, Inv_mark. assumption.
  - destruct (bool_decide _) eqn:Hin; [|discriminate]. injection Hs as <-.
    apply bool_decide_eq_true_1 in Hin. apply Inv_timeout_fires; assumption.
  - destruct (bool_decide _); [|discriminate]. injection Hs as <-.
    apply Inv_sendToServer. assumption.
Qed.

Lemma Inv_run es : forall w w', Inv w -> run w es = Some w' -> Inv w'.
Proof.
  induction es as [|e es IH]; intros w w' HI Hr; cbn in Hr.
  - injection Hr as <-. assumption.
  - destruct (step w e) as [w1|] eqn:Hs; [|discriminate].
    eapply IH; [|eassumption]. eapply Inv_step; eassumption.
Qed.

End Invariants.

(** ** Timers and backoff in every reachable state *)

Section Reachable.

Context `{Platform}.


(** X2: in every reachable state the browser runs at most one interval
    timer; one runs exactly when [pingIntervalId] holds its handle, and its
    period is the keep-alive period of 25 seconds. *)
Theorem reachable_single_keepalive_interval (es : list Event) (w : World) :
  run initial es = Some w ->
  match pingIntervalId w with
  | Some h => intervals w = [(h, 25000)]
  | None => intervals w = []
  end.
Proof.
  intros Hr. pose proof (Inv_run es _ _ Inv_initial Hr) as [_ I2 _ _ _].
  exact I2.
Qed.

(** X3: along every run from the initial state, the stored backoff and the
    base delay of every reconnect timeout that was ever set lie between
    the floor of 1000 ms and the ceiling of 30000 ms. *)
Theorem reachable_backoff_in_range (es : list Event) (w : World) :
  run initial es = Some w ->
  1000 <= currentReconnectDelay w <= 30000
  /\ Forall (fun base => 1000 <= base <= 30000) (scheduled_bases (trace w)).
Proof.
  intros Hr. pose proof (Inv_run es _ _ Inv_initial Hr) as [_ _ I3 I4 _].
  split; assumption.
Qed.

End Reachable.

(** ** The backoff sequence *)

Lemma backoff_0 : backoff 0 = RECONNECT_INITIAL_DELAY_MS.
Proof. reflexivity. Qed.

Lemma backoff_S i : backoff (S i) = Z.min (backoff i * 2) RECONNECT_MAX_DELAY_MS.
Proof.
  unfold backoff. rewrite Nat2Z.inj_succ, Z.pow_succ_r by lia.
  assert (0 < 2 ^ Z.of_nat i) by (apply Z.pow_pos_nonneg; lia).
  unfold RECONNECT_INITIAL_DELAY_MS, RECONNECT_MAX_DELAY_MS. lia.
Qed.

Section Backoff.

Context `{Platform}.

Lemma run_app es1 es2 : forall w,
  run w (es1 ++ es2) = match run w es1 with
                       | Some w1 => run w1 es2
                       | None => None
                       end.
Proof.
  induction es1 as [|e es1 IH]; intros w; cbn [run app]; [reflexivity|].
  destruct (step w e); [apply IH|reflexivity].
Qed.

Lemma close_schedules tok i w k event w1 :
  truthy (Some tok) = true ->
  retrying tok i w ->
  step w (SocketCloses k event) = Some w1 ->
  scheduled_bases (trace w1) = scheduled_bases (trace w) ++ [backoff i]
  /\ currentReconnectDelay w1 = backoff (S i)
  /\ explicitClose w1 = false
  /\ currentJwtToken w1 = Some tok
  /\ socket w1 = None
  /\ currentStatus w1 = RECONNECTING
  /\ reconnectTimeoutId w1 = Some (next_handle w).
Proof.
  intros Htok (Hd & He & Ht & Hk) Hs. cbn in Hs.
  destruct (ready_state w k) as [r|]; [|discriminate].
  destruct (r =? WS_CLOSED); [discriminate|]. injection Hs as <-.
  rewrite backoff_S, <- Hd.
  destruct w as [sk st cb pi rt dl ec tk sks tms ivs nh rc tr].
  cbn in Hd, He, Ht, Hk. subst ec rt tk.
  destruct tok as [|c s]; [discriminate|].
  destruct pi as [h'|]; unfold onSocketClose, scheduleReconnect; eval_handlers;
    rewrite ?scheduled_bases_app, ?scheduled_bases_status_trace, ?app_nil_r;
    repeat split; reflexivity.
Qed.

Lemma timer_reconnects tok i w h w2 :
  truthy (Some tok) = true ->
  WebSocket_throws (wsUrl_of tok) = None ->
  currentReconnectDelay w = backoff i ->
  explicitClose w = false ->
  currentJwtToken w = Some tok ->
  socket w = None ->
  step w (TimeoutFires h) = Some w2 ->
  scheduled_bases (trace w2) = scheduled_bases (trace w)
  /\ retrying tok i w2
  /\ currentStatus w2 = CONNECTING
  /\ socket w2 = Some (length (sockets w))
  /\ sockets w2 = sockets w ++ [new_WebSocket (wsUrl_of tok)].
Proof.
  intros Htok Hctor Hd He Hk Hsk Hs. cbn in Hs.
  destruct (bool_decide _); [|discriminate]. injection Hs as <-.
  unfold retrying.
  destruct w as [sk st cb pi rt dl ec tk sks tms ivs nh rc tr].
  cbn in Hd, He, Hk, Hsk. subst ec sk tk dl.
  destruct tok as [|c s]; [discriminate|].
  unfold reconnectTimerCallback. eval_records.
  unfold connect. cbv zeta. rewrite Hctor. eval_handlers.
  rewrite ?scheduled_bases_app, ?scheduled_bases_status_trace, ?app_nil_r.
  repeat split; reflexivity.
Qed.

Lemma failed_attempts_retrying tok cs : forall i w w',
  truthy (Some tok) = true ->
  WebSocket_throws (wsUrl_of tok) = None ->
  retrying tok i w ->
  run w (failed_attempts cs) = Some w' ->
  retrying tok (length cs + i) w'
  /\ scheduled_bases (trace w')
     = scheduled_bases (trace w) ++ map backoff (seq i (length cs)).
Proof.
  induction cs as [|[[k event] h] cs IH]; intros i w w' Htok Hctor Hw Hr.
  - cbn in Hr. injection Hr as <-. cbn. rewrite app_nil_r. auto.
  - cbn [failed_attempts run] in Hr.
    destruct (step w (SocketCloses k event)) as [w1|] eqn:H1; [|discriminate].
    destruct (step w1 (TimeoutFires h)) as [w2|] eqn:H2; [|discriminate].
    destruct (close_schedules _ _ _ _ _ _ Htok Hw H1)
      as (Hb1 & Hd1 & He1 & Hk1 & Hs1 & _ & _).
    destruct (timer_reconnects _ _ _ _ _ Htok Hctor Hd1 He1 Hk1 Hs1 H2)
      as (Hb2 & Hw2 & _).
    destruct (IH _ _ _ Htok Hctor Hw2 Hr) as (Hw' & Hb').
    split.
    + replace (length ((k, event, h) :: cs) + i)%nat with (length cs + S i)%nat
        by (cbn; lia).
      assumption.
    + rewrite Hb', Hb2, Hb1, <- app_assoc. reflexivity.
Qed.

(** X4: start from any state with the backoff at its floor, a token stored,
    no timer pending and no close requested (the state after a successful
    open).  If sockets then close [n] times in a row, the reconnect timeout
    firing and a new socket being constructed after each close but the
    last, the module sets exactly [n] timeouts, and the base delay of the
    i-th is [min (1000 * 2^(i-1)) 30000]; the stored backoff is the next
    value of that sequence. *)
Theorem backoff_doubles_to_ceiling (tok : string) (w w' : World)
    (cs : list (nat * CloseEvent * positive)) (k : nat) (event : CloseEvent) :
  truthy (Some tok) = true ->
  WebSocket_throws (wsUrl_of tok) = None ->
  currentReconnectDelay w = RECONNECT_INITIAL_DELAY_MS ->
  explicitClose w = false ->
  reconnectTimeoutId w = None ->
  currentJwtToken w = Some tok ->
  run w (failed_attempts cs ++ [SocketCloses k event]) = Some w' ->
  let n := S (length cs) in
  scheduled_bases (trace w')
  = scheduled_bases (trace w)
    ++ map (fun i => Z.min (1000 * 2 ^ Z.of_nat i) 30000) (seq 0 n)
  /\ currentReconnectDelay w' = Z.min (1000 * 2 ^ Z.of_nat n) 30000
  /\ currentStatus w' = RECONNECTING.
Proof.
  intros Htok Hctor Hd He Ht Hk Hr n.
  assert (Hw : retrying tok 0 w) by (unfold retrying; auto).
  assert (exists w1, run w (failed_attempts cs) = Some w1
                     /\ step w1 (SocketCloses k event) = Some w')
    as (w1 & Hr1 & Hs).
  { rewrite run_app in Hr.
    destruct (run w (failed_attempts cs)) as [w1|]; [|discriminate].
    exists w1. split; [reflexivity|].
    cbn [run] in Hr. destruct (step w1 (SocketCloses k event)); [|discriminate].
    exact Hr. }
  destruct (failed_attempts_retrying _ _ _ _ _ Htok Hctor Hw Hr1) as (Hw1 & Hb1).
  destruct (close_schedules _ _ _ _ _ _ Htok Hw1 Hs) as (Hb & Hd' & _ & _ & _ & Hst & _).
  rewrite Nat.add_0_r in Hb, Hd'.
  split; [|split; [exact Hd'|exact Hst]].
  rewrite Hb, Hb1, <- app_assoc. subst n.
  rewrite seq_S, map_app. reflexivity.
Qed.

(** X5: whenever a socket opens, the backoff is back at its floor however
    far it had climbed; in a reachable state this also leaves no reconnect
    timeout pending, the status [CONNECTED], and one fresh keep-alive
    interval of 25 seconds. *)
Theorem open_resets_backoff (es : list Event) (w w' : World) (k : nat) :
  run initial es = Some w ->
  step w (SocketOpens k) = Some w' ->
  currentReconnectDelay w' = RECONNECT_INITIAL_DELAY_MS
  /\ currentStatus w' = CONNECTED
  /\ reconnectTimeoutId w' = None
  /\ timeouts w' = []
  /\ pingIntervalId w' = Some (next_handle w)
  /\ intervals w' = [(next_handle w, 25000)].
Proof.
  intros Hr Hs. pose proof (Inv_run es _ _ Inv_initial Hr) as HI.
  cbn in Hs. destruct (bool_decide _); [|discriminate]. injection Hs as <-.
  apply (Inv_mark k WS_OPEN) in HI. revert HI.
  replace (next_handle w) with (next_handle (mark k WS_OPEN w)) by reflexivity.
  generalize (mark k WS_OPEN w). clear. intros w HI.
  open_inv w HI; unfold onSocketOpen; eval_handlers;
    rewrite ?filter_handle_single, ?filter_interval_single;
    repeat split; reflexivity.
Qed.

End Backoff.

(** ** Single handlers *)

Ltac open_world w :=
  destruct w as [sk st cb pi rt dl ec tk sks tms ivs nh rc tr];
  destruct rt as [h|], pi as [h'|], sk as [k0|].

Section Handlers.

Context `{Platform}.

(** X6: a close event that arrives while a reconnect timeout is pending
    only stops the keep-alive loop.  No status is reported, no timeout is
    set or cleared, the backoff is unchanged, and neither [socket] nor the
    explicit-close flag is reset. *)
Theorem duplicate_close_ignored (w w' : World) (k : nat) (event : CloseEvent)
    (h : positive) :
  reconnectTimeoutId w = Some h ->
  step w (SocketCloses k event) = Some w' ->
  currentStatus w' = currentStatus w
  /\ reconnectTimeoutId w' = Some h
  /\ timeouts w' = timeouts w
  /\ currentReconnectDelay w' = currentReconnectDelay w
  /\ socket w' = socket w
  /\ explicitClose w' = explicitClose w
  /\ currentJwtToken w' = currentJwtToken w
  /\ pingIntervalId w' = None
  /\ trace w' = trace w ++ match pingIntervalId w with
                           | Some h' => [IntervalCleared h']
                           | None => []
                           end.
Proof.
  intros Ht Hs. cbn in Hs.
  destruct (ready_state w k) as [r|]; [|discriminate].
  destruct (r =? WS_CLOSED); [discriminate|]. injection Hs as <-.
  destruct w as [sk st cb pi rt dl ec tk sks tms ivs nh rc tr].
  cbn in Ht. subst rt.
  destruct pi as [h'|]; unfold onSocketClose; eval_handlers;
    rewrite ?app_nil_r; repeat split; reflexivity.
Qed.

(** *** The keep-alive loop *)

Lemma connect_ping tok w : pingIntervalId (connect tok w) = pingIntervalId w.
Proof.
  open_world w; destruct tok as [[|c s]|]; unfold connect, scheduleReconnect; cbv zeta;
    try destruct (socket_live _);
    try destruct (WebSocket_throws _);
    eval_handlers; reflexivity.
Qed.

Lemma sendToServer_ping m w : pingIntervalId (sendToServer m w) = pingIntervalId w.
Proof.
  unfold sendToServer. destruct (socket w); [destruct (bool_decide _)|]; reflexivity.
Qed.

Lemma onSocketMessage_ping data w :
  pingIntervalId (onSocketMessage data w) = pingIntervalId w.
Proof.
  destruct (onSocketMessage_cases data w) as [-> | (e & -> & _)]; reflexivity.
Qed.

Lemma onSocketClose_ping event w : pingIntervalId (onSocketClose event w) = None.
Proof.
  open_world w; destruct ec, tk as [[|c s]|];
    unfold onSocketClose, scheduleReconnect; eval_handlers; reflexivity.
Qed.

Lemma disconnect_ping w : pingIntervalId (disconnect w) = None.
Proof.
  open_world w; unfold disconnect, onSocketClose; cbv zeta;
    try destruct (socket_live _); eval_handlers; reflexivity.
Qed.

Lemma onSocketOpen_ping w : is_Some (pingIntervalId (onSocketOpen w)).
Proof.
  open_world w; unfold onSocketOpen; eval_handlers; eexists; reflexivity.
Qed.

Lemma reconnectTimerCallback_ping w :
  pingIntervalId (reconnectTimerCallback w) = pingIntervalId w.
Proof.
  unfold reconnectTimerCallback. cbv zeta.
  destruct (truthy _); [rewrite connect_ping; reflexivity|].
  rewrite updateStatus_ping. reflexivity.
Qed.

Lemma step_keepalive w e w' :
  step w e = Some w' ->
  keepalive_running w' = keepalive_after (keepalive_running w) [e].
Proof.
  unfold keepalive_running. intros Hs. destruct e; cbn in Hs |- *.
  - injection Hs as <-. rewrite connect_ping. reflexivity.
  - injection Hs as <-. rewrite disconnect_ping. reflexivity.
  - injection Hs as <-. unfold setOnStatusChange. destruct callback; reflexivity.
  - destruct (bool_decide _); [|discriminate]. injection Hs as <-.
    apply bool_decide_eq_true_2, onSocketOpen_ping.
  - destruct (bool_decide _); [|discriminate]. injection Hs as <-.
    rewrite onSocketMessage_ping. reflexivity.
  - destruct (ready_state w k) as [r|]; [|discriminate].
    destruct (r =? WS_CLOSED); [discriminate|]. injection Hs as <-. reflexivity.
  - destruct (bool_decide _); [|discriminate]. injection Hs as <-. reflexivity.
  - destruct (ready_state w k) as [r|]; [|discriminate].
    destruct (r =? WS_CLOSED); [discriminate|]. injection Hs as <-.
    rewrite onSocketClose_ping. reflexivity.
  - destruct (bool_decide _); [|discriminate]. injection Hs as <-.
    rewrite reconnectTimerCallback_ping. reflexivity.
  - destruct (bool_decide _); [|discriminate]. injection Hs as <-.
    unfold pingTick. rewrite sendToServer_ping. reflexivity.
Qed.

(** X7: the keep-alive loop is running after a run exactly when the last
    socket-open, socket-close or [disconnect] event of the run is a socket
    opening (or, without such an event, when it was running before).  The
    status plays no part: [connect] calls, messages and timers neither
    start nor stop the loop. *)
Theorem keepalive_follows_events (es : list Event) (w w' : World) :
  run w es = Some w' ->
  keepalive_running w' = keepalive_after (keepalive_running w) es.
Proof.
  revert w. induction es as [|e es IH]; intros w Hr; cbn [run] in Hr.
  - injection Hr as <-. reflexivity.
  - destruct (step w e) as [w1|] eqn:Hs; [|discriminate].
    rewrite (IH _ Hr), (step_keepalive _ _ _ Hs). reflexivity.
Qed.

(** *** After [disconnect] *)

Lemma stopped_disconnect w : Inv w -> stopped (disconnect w).
Proof.
  intros HI. split; [apply Inv_disconnect; assumption|].
  clear HI. open_world w; unfold disconnect, onSocketClose; cbv zeta;
    try destruct (socket_live _); eval_handlers; split; reflexivity.
Qed.

Lemma disconnect_sockets_length w :
  length (sockets (disconnect w)) = length (sockets w)
  /\ scheduled_bases (trace (disconnect w)) = scheduled_bases (trace w).
Proof.
  open_world w; unfold disconnect, onSocketClose; cbv zeta;
    try destruct (socket_live _); eval_handlers;
    rewrite ?scheduled_bases_app, ?scheduled_bases_status_trace, ?app_nil_r,
      ?length_alter;
    split; reflexivity.
Qed.

Lemma stopped_step w e w' :
  stopped w -> no_connect_call e -> step w e = Some w' ->
  stopped w'
  /\ length (sockets w') = length (sockets w)
  /\ scheduled_bases (trace w') = scheduled_bases (trace w).
Proof.
  intros (HI & Hk & Ht) He Hs.
  assert (HI' : Inv w') by (eapply Inv_step; eassumption).
  unfold stopped. cut ((truthy (currentJwtToken w') = false
                        /\ reconnectTimeoutId w' = None)
                       /\ length (sockets w') = length (sockets w)
                       /\ scheduled_bases (trace w') = scheduled_bases (trace w)).
  { intros ((? & ?) & ? & ?). auto. }
  clear HI'. pose proof (inv_timers _ HI) as Htm. unfold timers_ok in Htm.
  rewrite Ht in Htm. clear HI.
  destruct e; cbn in Hs, He.
  - injection Hs as <-. destruct jwtToken as [[|c s]|]; try discriminate He;
      unfold connect; rewrite updateStatus_report; cbn;
      rewrite scheduled_bases_app, scheduled_bases_status_trace, app_nil_r; auto.
  - injection Hs as <-. clear Htm.
    open_world w; cbn in Hk, Ht; try discriminate Ht;
      unfold disconnect, onSocketClose; cbv zeta;
      try destruct (socket_live _); eval_handlers;
      rewrite ?scheduled_bases_app, ?scheduled_bases_status_trace, ?app_nil_r,
        ?length_alter; auto.
  - injection Hs as <-. unfold setOnStatusChange. destruct callback; cbn;
      rewrite ?scheduled_bases_app, ?app_nil_r; auto.
  - destruct (bool_decide _); [|discriminate]. injection Hs as <-.
    clear Htm.
    open_world w; cbn in Hk, Ht; try discriminate Ht;
      unfold onSocketOpen; eval_handlers;
      rewrite ?scheduled_bases_app, ?scheduled_bases_status_trace, ?app_nil_r,
        ?length_alter; auto.
  - destruct (bool_decide _); [|discriminate]. injection Hs as <-.
    destruct (onSocketMessage_cases data w) as [-> | (e & -> & Hne)]; [auto|].
    cbn. rewrite scheduled_bases_app.
    destruct e; try (rewrite app_nil_r; auto). exfalso. eapply Hne. reflexivity.
  - destruct (ready_state w k) as [r|]; [|discriminate].
    destruct (r =? WS_CLOSED); [discriminate|]. injection Hs as <-.
    cbn. rewrite scheduled_bases_app, app_nil_r. auto.
  - destruct (bool_decide _); [|discriminate]. injection Hs as <-.
    cbn. rewrite length_alter. auto.
  - destruct (ready_state w k) as [r|]; [|discriminate].
    destruct (r =? WS_CLOSED); [discriminate|]. injection Hs as <-.
    clear Htm.
    open_world w; cbn in Hk, Ht; try discriminate Ht;
      destruct ec, tk as [[|c s]|]; try discriminate Hk;
      unfold onSocketClose, scheduleReconnect; eval_handlers;
      rewrite ?scheduled_bases_app, ?scheduled_bases_status_trace, ?app_nil_r,
        ?length_alter; auto.
  - rewrite Htm in Hs. cbn in Hs. discriminate.
  - destruct (bool_decide _); [|discriminate]. injection Hs as <-.
    unfold pingTick, sendToServer.
    destruct (socket w); [destruct (bool_decide _)|]; cbn;
      rewrite ?scheduled_bases_app, ?app_nil_r, ?length_alter; auto.
Qed.

(** X8: once [disconnect] has been called in a reachable state, the module
    never reconnects on its own: whatever socket events and timer events
    follow, as long as [connect] is not called with a token, no WebSocket
    is constructed, no reconnect timeout is set or pending, and no token is
    stored. *)
Theorem disconnect_stops_reconnecting (es0 es : list Event) (w w' : World) :
  run initial es0 = Some w ->
  Forall no_connect_call es ->
  run (disconnect w) es = Some w' ->
  length (sockets w') = length (sockets w)
  /\ scheduled_bases (trace w') = scheduled_bases (trace w)
  /\ timeouts w' = []
  /\ reconnectTimeoutId w' = None
  /\ truthy (currentJwtToken w') = false.
Proof.
  intros Hr0 Hes Hr.
  pose proof (Inv_run es0 _ _ Inv_initial Hr0) as HI.
  pose proof (stopped_disconnect w HI) as Hq.
  destruct (disconnect_sockets_length w) as (Hl & Hb). rewrite <- Hl, <- Hb.
  clear Hl Hb HI Hr0. revert Hq Hr. generalize (disconnect w). clear w.
  induction Hes as [|e es He Hes IH]; intros w Hq Hr; cbn [run] in Hr.
  - injection Hr as <-. destruct Hq as (HI & Hk & Ht).
    pose proof (inv_timers _ HI) as Htm. unfold timers_ok in Htm.
    rewrite Ht in Htm. auto.
  - destruct (step w e) as [w1|] eqn:Hs; [|discriminate].
    destruct (stopped_step _ _ _ Hq He Hs) as (Hq1 & Hl & Hb).
    rewrite <- Hl, <- Hb. apply IH; assumption.
Qed.

(** *** The status observer *)

Lemma last_observed_app tr1 tr2 :
  last_observed (tr1 ++ tr2)
  = foldl (fun acc e => match e with ObserverCalled s _ => Some s | _ => acc end)
      (last_observed tr1) tr2.
Proof. apply foldl_app. Qed.

Ltac open_observer w HO :=
  destruct w as [sk st cb pi rt dl ec tk sks tms ivs nh rc tr];
  destruct cb;
  [specialize (HO eq_refl); cbn in HO
  |clear HO];
  destruct rt as [h|], pi as [h'|], sk as [k0|], st.

Ltac close_observer :=
  unfold observer_informed; eval_records;
  try discriminate;
  intros _;
  rewrite ?app_nil_r, <- ?app_assoc;
  rewrite ?last_observed_app; unfold status_trace; eval_records;
  cbn;
  try reflexivity; try assumption.

Lemma observer_updateStatus s d w :
  observer_informed w -> observer_informed (updateStatus s d w).
Proof.
  unfold observer_informed. intros HO.
  rewrite updateStatus_report. unfold status_trace. cbn.
  destruct (onStatusChangeCallback w); [|discriminate]. specialize (HO eq_refl).
  intros _. rewrite last_observed_app.
  destruct (status_eqb (currentStatus w) s) eqn:E; cbn.
  - assert (currentStatus w = s) as <-
      by (destruct (currentStatus w), s; try discriminate E; reflexivity).
    destruct d; cbn; [reflexivity|]. assumption.
  - reflexivity.
Qed.

Lemma observer_frame w w' :
  onStatusChangeCallback w' = onStatusChangeCallback w ->
  currentStatus w' = currentStatus w ->
  last_observed (trace w') = last_observed (trace w) ->
  observer_informed w -> observer_informed w'.
Proof. unfold observer_informed. intros -> -> ->. auto. Qed.

Lemma observer_connect tok w :
  observer_informed w -> observer_informed (connect tok w).
Proof.
  intros HO. open_observer w HO;
    destruct tok as [[|c s]|]; unfold connect, scheduleReconnect; cbv zeta;
    try destruct (socket_live _);
    try destruct (WebSocket_throws _);
    eval_handlers; close_observer.
Qed.

Lemma observer_disconnect w : observer_informed w -> observer_informed (disconnect w).
Proof.
  intros HO. open_observer w HO;
    unfold disconnect, onSocketClose; cbv zeta;
    try destruct (socket_live _);
    eval_handlers; close_observer.
Qed.

Lemma observer_onSocketOpen w : observer_informed w -> observer_informed (onSocketOpen w).
Proof.
  intros HO. open_observer w HO; unfold onSocketOpen; eval_handlers; close_observer.
Qed.

Lemma observer_onSocketClose event w :
  observer_informed w -> observer_informed (onSocketClose event w).
Proof.
  intros HO. open_observer w HO; destruct ec, tk as [[|c s]|];
    unfold onSocketClose, scheduleReconnect; eval_handlers; close_observer.
Qed.

Lemma observer_log e w :
  (forall s d, e <> ObserverCalled s d) ->
  observer_informed w -> observer_informed (log e w).
Proof.
  intros He. apply observer_frame; try reflexivity.
  cbn. rewrite last_observed_app. destruct e; try reflexivity.
  exfalso. eapply He. reflexivity.
Qed.

Lemma observer_reconnectTimerCallback w :
  observer_informed w -> observer_informed (reconnectTimerCallback w).
Proof.
  intros HO. unfold reconnectTimerCallback. cbv zeta.
  destruct (truthy _).
  - apply observer_connect. exact HO.
  - apply observer_updateStatus. exact HO.
Qed.

Lemma observer_step w e w' :
  observer_informed w -> step w e = Some w' -> observer_informed w'.
Proof.
  intros HO Hs. destruct e; cbn in Hs.
  - injection Hs as <-. apply observer_connect. assumption.
  - injection Hs as <-. apply observer_disconnect. assumption.
  - injection Hs as <-. unfold setOnStatusChange, observer_informed.
    destruct callback; cbn; [|discriminate].
    intros _. rewrite last_observed_app. reflexivity.
  - destruct (bool_decide _); [|discriminate]. injection Hs as <-.
    apply observer_onSocketOpen. exact HO.
  - destruct (bool_decide _); [|discriminate]. injection Hs as <-.
    unfold onSocketMessage.
    repeat match goal with
           | |- observer_informed (match ?x with _ => _ end) => destruct x
           | |- observer_informed (if ?x then _ else _) => destruct x
           end;
      try assumption; apply observer_log; try assumption; discriminate.
  - destruct (ready_state w k) as [r|]; [|discriminate].
    destruct (r =? WS_CLOSED); [discriminate|]. injection Hs as <-.
    apply observer_log; [discriminate|assumption].
  - destruct (bool_decide _); [|discriminate]. injection Hs as <-. exact HO.
  - destruct (ready_state w k) as [r|]; [|discriminate].
    destruct (r =? WS_CLOSED); [discriminate|]. injection Hs as <-.
    apply observer_onSocketClose. exact HO.
  - destruct (bool_decide _); [|discriminate]. injection Hs as <-.
    apply observer_reconnectTimerCallback. exact HO.
  - destruct (bool_decide _); [|discriminate]. injection Hs as <-.
    unfold pingTick, sendToServer.
    destruct (socket w); [destruct (bool_decide _)|];
      apply observer_log; try discriminate; exact HO.
Qed.

(** X9: the observer is never left with a stale status.  In every state
    reachable from the initial one in which an observer is registered, the
    status it was given last (at registration or by a later report) is the
    current status. *)
Theorem observer_never_stale (es : list Event) (w : World) :
  run initial es = Some w ->
  onStatusChangeCallback w = true ->
  last_observed (trace w) = Some (currentStatus w).
Proof.
  intros Hr. change (observer_informed w).
  assert (H0 : observer_informed initial) by (intros Hcb; discriminate Hcb).
  revert H0 Hr. generalize initial. induction es as [|e es IH]; intros w0 H0 Hr;
    cbn [run] in Hr.
  - injection Hr as <-. exact H0.
  - destruct (step w0 e) as [w1|] eqn:Hs; [|discriminate].
    eapply IH; [|exact Hr]. eapply observer_step; eassumption.
Qed.

End Handlers.

(** ** Calls of the exported functions *)

Section Calls.

Context `{Platform}.

(** X10: [sendToServer] hands the message to [send] exactly when [socket]
    is set and that WebSocket is open: its list of sent frames grows by the
    message and no other WebSocket changes.  In every other case the
    message is dropped with a warning and no WebSocket changes.  Either
    way the module's variables and the timers are untouched. *)
Theorem sendToServer_delivery (message : WSClientSentMessage) (w : World) :
  let w' := sendToServer message w in
  let is_open := match socket w with
                 | Some k => bool_decide (ready_state w k = Some WS_OPEN)
                 | None => false
                 end in
  (socket w' = socket w /\ currentStatus w' = currentStatus w
   /\ pingIntervalId w' = pingIntervalId w
   /\ reconnectTimeoutId w' = reconnectTimeoutId w
   /\ currentReconnectDelay w' = currentReconnectDelay w
   /\ explicitClose w' = explicitClose w /\ currentJwtToken w' = currentJwtToken w
   /\ timeouts w' = timeouts w /\ intervals w' = intervals w)
  /\ (is_open = true ->
      exists k o, socket w = Some k /\ sockets w !! k = Some o
        /\ sockets w' !! k
           = Some {| ws_url := ws_url o; readyState := WS_OPEN;
                     ws_sent := ws_sent o ++ [message];
                     ws_close_call := ws_close_call o |}
        /\ (forall j, j <> k -> sockets w' !! j = sockets w !! j)
        /\ trace w' = trace w ++ [Sent k message])
  /\ (is_open = false ->
      sockets w' = sockets w /\ trace w' = trace w ++ [SendDropped message]).
Proof.
  intros w' is_open. subst w' is_open. unfold sendToServer.
  destruct (socket w) as [k|] eqn:Hk.
  - destruct (bool_decide (ready_state w k = Some WS_OPEN)) eqn:Ho.
    + split; [repeat split; try reflexivity; exact Hk|].
      split; [intros _|discriminate].
      apply bool_decide_eq_true_1 in Ho. unfold ready_state in Ho.
      destruct (sockets w !! k) as [o|] eqn:Hl; [|discriminate].
      injection Ho as Ho. exists k, o. split; [reflexivity|]. split; [exact Hl|].
      cbn. rewrite list_lookup_alter_eq, Hl. cbn. rewrite Ho.
      split; [reflexivity|]. split; [|reflexivity].
      intros j Hj. apply list_lookup_alter_ne. congruence.
    + split; [repeat split; try reflexivity; exact Hk|].
      split; [discriminate|]. intros _. split; reflexivity.
  - split; [repeat split; try reflexivity; exact Hk|].
    split; [discriminate|]. intros _. split; reflexivity.
Qed.

(** X11: when [connect] is given a token and the [WebSocket] constructor
    throws, [socket] and the WebSocket objects stay as they were, the
    status is reported [ERROR] and then [RECONNECTING], and a reconnect
    timeout with the stored backoff is set, replacing any pending one; the
    backoff then doubles up to the ceiling.  The token is stored and the
    explicit-close flag is cleared. *)
Theorem connect_constructor_throws (w : World) (c : ascii) (s msg : string) :
  let tok := String c s in
  socket_live w = false ->
  WebSocket_throws (wsUrl_of tok) = Some msg ->
  let w' := connect (Some tok) w in
  let t := {| tm_handle := next_handle w; tm_base := currentReconnectDelay w;
              tm_draw := random_calls w |} in
  currentStatus w' = RECONNECTING
  /\ socket w' = socket w
  /\ sockets w' = sockets w
  /\ currentJwtToken w' = Some tok
  /\ explicitClose w' = false
  /\ reconnectTimeoutId w' = Some (next_handle w)
  /\ timeouts w'
     = match reconnectTimeoutId w with
       | Some h => filter (fun t' => tm_handle t' ≠ h) (timeouts w)
       | None => timeouts w
       end ++ [t]
  /\ currentReconnectDelay w'
     = Z.min (currentReconnectDelay w * 2) RECONNECT_MAX_DELAY_MS
  /\ StatusLogged ERROR (Some (DInstantiate msg)) ∈ trace w'.
Proof.
  intros tok Hlive Hctor w' t. subst w' t tok.
  unfold connect, scheduleReconnect. cbv zeta.
  replace (socket_live (set_currentJwtToken (Some (String c s)) w)) with false
    by (rewrite <- Hlive; reflexivity).
  rewrite Hctor. clear Hlive Hctor.
  open_world w; eval_handlers; repeat split; try reflexivity;
    unfold status_trace; eval_records; cbn [negb andb];
    rewrite ?andb_false_r;
    rewrite !elem_of_app; destruct cb;
    cbn; rewrite ?elem_of_cons; tauto.
Qed.

(** X12: when [connect] is given a token while [socket] is unset, closing
    or closed, and the constructor succeeds, one WebSocket is constructed
    with the token in its URL and becomes [socket]; the status is
    [CONNECTING], the token is stored and the explicit-close flag cleared.
    A reconnect timeout that is pending stays pending, and the backoff is
    unchanged. *)
Theorem connect_opens_socket (w : World) (c : ascii) (s : string) :
  let tok := String c s in
  socket_live w = false ->
  WebSocket_throws (wsUrl_of tok) = None ->
  let w' := connect (Some tok) w in
  currentStatus w' = CONNECTING
  /\ socket w' = Some (length (sockets w))
  /\ sockets w'
     = sockets w ++ [{| ws_url := BASE_WEBSOCKET_URL +:+ "?auth_token=" +:+ tok;
                        readyState := WS_CONNECTING; ws_sent := [];
                        ws_close_call := None |}]
  /\ currentJwtToken w' = Some tok
  /\ explicitClose w' = false
  /\ reconnectTimeoutId w' = reconnectTimeoutId w
  /\ timeouts w' = timeouts w
  /\ currentReconnectDelay w' = currentReconnectDelay w
  /\ pingIntervalId w' = pingIntervalId w.
Proof.
  intros tok Hlive Hctor w'. subst w' tok.
  unfold connect. cbv zeta.
  replace (socket_live (set_currentJwtToken (Some (String c s)) w)) with false
    by (rewrite <- Hlive; reflexivity).
  rewrite Hctor. clear Hlive Hctor.
  open_world w; eval_handlers; repeat split; reflexivity.
Qed.

(** X13: when [connect] is given a token while [socket] is open or
    connecting, it only stores the token and writes one console line: no
    WebSocket is constructed, the status is not reported, and the
    explicit-close flag, the timers and the backoff are as before.  The
    token it stored is the one the next reconnect uses: if a socket then
    closes and the reconnect timeout fires, the WebSocket constructed
    carries that token in its URL. *)
Theorem connect_while_live (w : World) (c : ascii) (s : string) :
  let tok := String c s in
  socket_live w = true ->
  connect (Some tok) w = log AlreadyConnected (set_currentJwtToken (Some tok) w)
  /\ (explicitClose w = false -> reconnectTimeoutId w = None ->
      WebSocket_throws (wsUrl_of tok) = None ->
      forall k event h w1 w2,
        step (connect (Some tok) w) (SocketCloses k event) = Some w1 ->
        step w1 (TimeoutFires h) = Some w2 ->
        socket w2 = Some (length (sockets w))
        /\ sockets w2 !! length (sockets w)
           = Some {| ws_url := BASE_WEBSOCKET_URL +:+ "?auth_token=" +:+ tok;
                     readyState := WS_CONNECTING; ws_sent := [];
                     ws_close_call := None |}
        /\ currentJwtToken w2 = Some tok).
Proof.
  intros tok Hlive. subst tok.
  assert (connect (Some (String c s)) w
          = log AlreadyConnected (set_currentJwtToken (Some (String c s)) w)) as ->.
  { unfold connect. cbv zeta.
    replace (socket_live (set_currentJwtToken (Some (String c s)) w)) with true
      by (rewrite <- Hlive; reflexivity).
    reflexivity. }
  split; [reflexivity|]. clear Hlive.
  intros He Ht Hctor k event h w1 w2 H1 H2.
  cbn in H1. destruct (ready_state _ k) as [r|]; [|discriminate].
  destruct (r =? WS_CLOSED); [discriminate|]. injection H1 as <-.
  cbn in H2. destruct (bool_decide _); [|discriminate]. injection H2 as <-.
  destruct w as [sk st cb pi rt dl ec tk sks tms ivs nh rc tr].
  cbn in He, Ht. subst ec rt.
  destruct pi as [h'|];
    unfold onSocketClose, scheduleReconnect; eval_handlers;
    unfold reconnectTimerCallback; eval_records;
    unfold connect; cbv zeta; rewrite Hctor; eval_handlers;
    rewrite length_alter;
    (split; [reflexivity|]);
    (split; [|reflexivity]);
    rewrite lookup_app_r by (rewrite length_alter; lia);
    rewrite length_alter, Nat.sub_diag; reflexivity.
Qed.


(** X15: [disconnect] on an open or connecting socket, in a reachable
    state, calls [close(1000, "Client initiated disconnect")] on it, clears
    [socket] and the token, sets the explicit-close flag and cancels both
    timers, but reports no status: the status keeps its value until the
    close event arrives.  That event then reports [IDLE] with the close
    code, clears the flag and schedules nothing. *)
Theorem disconnect_closes_live_socket (es : list Event) (w : World) (k : nat) :
  run initial es = Some w ->
  socket w = Some k ->
  socket_live w = true ->
  let w1 := disconnect w in
  (currentStatus w1 = currentStatus w
   /\ socket w1 = None
   /\ explicitClose w1 = true
   /\ currentJwtToken w1 = None
   /\ sockets w1
      = alter (fun o => {| ws_url := ws_url o; readyState := WS_CLOSING;
                           ws_sent := ws_sent o;
                           ws_close_call := Some (1000, "Client initiated disconnect"%string) |})
          k (sockets w)
   /\ reconnectTimeoutId w1 = None /\ timeouts w1 = []
   /\ pingIntervalId w1 = None /\ intervals w1 = [])
  /\ forall event w2,
      step w1 (SocketCloses k event) = Some w2 ->
      currentStatus w2 = IDLE
      /\ explicitClose w2 = false
      /\ socket w2 = None
      /\ timeouts w2 = []
      /\ currentJwtToken w2 = None
      /\ trace w2 = trace w1
                    ++ status_trace w1 IDLE (Some (DClosedByClient (ce_code event))).
Proof.
  intros Hr Hk Hlive w1. subst w1.
  pose proof (Inv_run es _ _ Inv_initial Hr) as HI. clear Hr.
  rename k into k1. split.
  - unfold disconnect. cbv zeta. revert Hlive.
    open_inv w HI; try discriminate Hk; cbn in Hk; injection Hk as ->;
      unfold onSocketClose; cbv zeta;
      (destruct (socket_live _) eqn:Hl; [intros _|discriminate]);
      (replace (socket_live _) with true by (rewrite <- Hl; reflexivity));
      eval_handlers;
      rewrite ?filter_handle_single, ?filter_interval_single;
      repeat split; reflexivity.
  - intros event w2 Hs. cbn in Hs.
    destruct (ready_state _ k1) as [r|]; [|discriminate].
    destruct (r =? WS_CLOSED); [discriminate|]. injection Hs as <-.
    unfold disconnect. cbv zeta. revert Hlive.
    open_inv w HI; try discriminate Hk; cbn in Hk; injection Hk as ->;
      (destruct (socket_live _) eqn:Hl; [intros _|discriminate]);
      (replace (socket_live _) with true by (rewrite <- Hl; reflexivity));
      eval_handlers;
      rewrite ?filter_handle_single, ?filter_interval_single;
      unfold onSocketClose; eval_handlers;
      repeat split; reflexivity.
Qed.

(** X24: messages sent one after the other reach the socket in that
    order.  While [socket] is an open WebSocket, sending the messages [ms]
    appends exactly [ms], in order, to the frames of that WebSocket; while
    it is not, every one of them is dropped and no WebSocket changes. *)
Theorem messages_sent_in_order (ms : list WSClientSentMessage) (w : World) :
  let w' := foldl (fun w0 m => sendToServer m w0) w ms in
  socket w' = socket w
  /\ (forall k o, socket w = Some k -> sockets w !! k = Some o ->
      readyState o = WS_OPEN ->
      sockets w' !! k
      = Some {| ws_url := ws_url o; readyState := WS_OPEN;
                ws_sent := ws_sent o ++ ms; ws_close_call := ws_close_call o |}
      /\ trace w' = trace w ++ map (Sent k) ms)
  /\ (match socket w with
      | Some k => bool_decide (ready_state w k = Some WS_OPEN)
      | None => false
      end = false ->
      sockets w' = sockets w /\ trace w' = trace w ++ map SendDropped ms).
Proof.
  revert w. induction ms as [|m ms IH]; intros w; cbn [foldl].
  - split; [reflexivity|]. split.
    + intros k o _ Hl Ho. cbn [map]. rewrite !app_nil_r, Hl.
      destruct o; cbn in Ho |- *; subst; auto.
    + intros _. rewrite app_nil_r. auto.
  - specialize (IH (sendToServer m w)). cbv zeta in IH.
    destruct IH as (IHs & IHo & IHd).
    assert (Hs : socket (sendToServer m w) = socket w).
    { unfold sendToServer. destruct (socket w) as [k|] eqn:Hk;
        [destruct (bool_decide _)|]; cbn; auto. }
    split; [congruence|]. split.
    + intros k o Hk Hl Hopen.
      assert (Hr : ready_state w k = Some WS_OPEN)
        by (unfold ready_state; rewrite Hl; cbn; rewrite Hopen; reflexivity).
      assert (Hsend : sendToServer m w = log (Sent k m) (socket_send k m w)).
      { unfold sendToServer. rewrite Hk, bool_decide_eq_true_2 by exact Hr.
        reflexivity. }
      assert (Hl1 : sockets (sendToServer m w) !! k
                    = Some {| ws_url := ws_url o; readyState := WS_OPEN;
                              ws_sent := ws_sent o ++ [m];
                              ws_close_call := ws_close_call o |}).
      { rewrite Hsend. cbn. rewrite list_lookup_alter_eq, Hl. cbn.
        rewrite Hopen. reflexivity. }
      destruct (IHo k _ (eq_trans Hs Hk) Hl1 eq_refl) as (Hl2 & Ht2).
      cbn [ws_url ws_sent ws_close_call] in Hl2.
      rewrite Hl2, Ht2, Hsend. cbn. rewrite <- !app_assoc. auto.
    + intros Hclosed.
      assert (Hsend : sendToServer m w = log (SendDropped m) w).
      { unfold sendToServer. destruct (socket w) as [k|]; [|reflexivity].
        rewrite Hclosed. reflexivity. }
      assert (Hclosed' : match socket (sendToServer m w) with
                         | Some k => bool_decide (ready_state (sendToServer m w) k
                                                   = Some WS_OPEN)
                         | None => false
                         end = false).
      { rewrite Hsend. exact Hclosed. }
      destruct (IHd Hclosed') as (Hsk2 & Ht2).
      rewrite Hsk2, Ht2, Hsend. cbn. rewrite <- app_assoc. auto.
Qed.

End Calls.

(** * Facts about the form-urlencoded model *)












Lemma split_on_nonempty sep s : split_on sep s <> [].
Proof.
  induction s as [|c s IH]; cbn; [discriminate|].
  destruct (Ascii.eqb c sep); [discriminate|].
  destruct (split_on sep s); discriminate.
Qed.




(** * Facts about the decoder *)




(** * Facts about the bridge *)

Lemma sent_messages_app l1 l2 :
  sent_messages (l1 ++ l2) = sent_messages l1 ++ sent_messages l2.
Proof. apply omap_app. Qed.

Lemma fetch_calls_app l1 l2 : fetch_calls (l1 ++ l2) = fetch_calls l1 ++ fetch_calls l2.
Proof. apply omap_app. Qed.

Lemma sent_messages_chunks i ts :
  sent_messages (map (fun t => SentToServer (WSStreamChunkMessage i t)) ts)
  = map (WSStreamChunkMessage i) ts.
Proof. induction ts as [|t ts IH]; cbn; [reflexivity|]. f_equal. exact IH. Qed.

Lemma fetch_calls_chunks i ts :
  fetch_calls (map (fun t => SentToServer (WSStreamChunkMessage i t)) ts) = [].
Proof. induction ts as [|t ts IH]; cbn; [reflexivity|]. exact IH. Qed.

Lemma sent_messages_cons c l :
  sent_messages (c :: l)
  = match c with SentToServer m => [m] | _ => [] end ++ sent_messages l.
Proof. destruct c; reflexivity. Qed.

Lemma fetch_calls_cons c l :
  fetch_calls (c :: l)
  = match c with Fetched u init => [(u, init)] | _ => [] end ++ fetch_calls l.
Proof. destruct c; reflexivity. Qed.

Ltac count_calls :=
  rewrite ?fetch_calls_cons, ?sent_messages_cons, ?fetch_calls_app, ?sent_messages_app,
    ?fetch_calls_chunks, ?sent_messages_chunks;
  cbn [app sent_messages fetch_calls omap list_omap].

Section BridgeFacts.

Context `{Web}.

(** The URL step neither sends nor fetches, and never throws. *)
Lemma fetched_url_quiet i m u :
  exists l u', fetched_url i m u = (l, inr u')
               /\ sent_messages l = [] /\ fetch_calls l = [].
Proof.
  unfold fetched_url.
  destruct (String.eqb m "GET"); [|by eexists _, _].
  destruct (URL_parse u) as [p|]; [|by eexists _, _].
  destruct (_ || _); [|by eexists _, _].
  destruct (searchParams_has _ _); by eexists _, _.
Qed.

Lemma read_loop_eq i chunks ending : forall d,
  read_loop i d chunks ending
  = (map (fun t => SentToServer (WSStreamChunkMessage i t)) (fst (decode_chunks d chunks)),
     match ending with
     | ReadDone => inr (snd (decode_chunks d chunks))
     | ReadRejects e => inl e
     end).
Proof.
  induction chunks as [|value chunks IH]; intros d; cbn [read_loop decode_chunks].
  - destruct ending; reflexivity.
  - destruct (decode_stream d value) as [t d1]. 
    change (send (WSStreamChunkMessage i t);; read_loop i d1 chunks ending)
      with (bind (send (WSStreamChunkMessage i t)) (fun _ => read_loop i d1 chunks ending)).
    rewrite IH. destruct (decode_chunks d1 chunks) as [ts d2]. cbn.
    destruct ending; reflexivity.
Qed.

Lemma on_error_eq i e :
  on_error i e = ([FetchErrorLogged i e; SentToServer (error_message i e)], inr tt).
Proof.
  unfold on_error, error_message. destruct e as [m | st t | s]; try reflexivity.
  destruct (st =? 0); reflexivity.
Qed.

(** Everything [handleHttpRequest] does: one [fetch] call, the messages
    that fit its outcome, and a promise that resolves. *)
Lemma handleHttpRequest_runs request :
  let i := id request in
  let p := payload request in
  let u := executed_url request in
  let init := fetch_options (method p) (headers p) (body p) in
  fetch_calls (fst (handleHttpRequest request)) = [(u, init)]
  /\ sent_messages (fst (handleHttpRequest request)) = result_messages i (fetch u init)
  /\ snd (handleHttpRequest request) = inr tt.
Proof.
  intros i p u init. subst u. unfold handleHttpRequest, executed_url.
  fold i p init.
  destruct (fetched_url_quiet i (method p) (url p)) as (l0 & u & Hu & Hs0 & Hf0).
  rewrite Hu.
  change (mbind ?k (l0, inr u)) with (bind (l0, @inr Thrown _ u) k).
  unfold bind. unfold attempt.
  change (call (Fetched u init);; ?k) with (bind (call (Fetched u init)) (fun _ => k)).
  unfold result_messages.
  assert (Hfin : forall l (r : Thrown + unit),
            fetch_calls l = [(u, init)] ->
            (exists ms e, r = inl e /\ sent_messages l ++ [error_message i e] = ms
                          /\ ms = result_messages i (fetch u init))
            \/ (r = inr tt /\ sent_messages l = result_messages i (fetch u init)) ->
            fetch_calls (let (l', r') := try_catch (l, r) (on_error i) in
                         (l0 ++ l', r')).1 = [(u, init)]
            /\ sent_messages (let (l', r') := try_catch (l, r) (on_error i) in
                              (l0 ++ l', r')).1 = result_messages i (fetch u init)
            /\ (let (l', r') := try_catch (l, r) (on_error i) in
                (l0 ++ l', r')).2 = inr tt).
  { intros l r Hf [(ms & e & -> & Hms & Hres) | [-> Hres]].
    - unfold try_catch. rewrite on_error_eq. cbn [fst snd].
      rewrite !fetch_calls_app, !sent_messages_app, Hs0, Hf0, Hf.
      cbn. rewrite <- Hres, <- Hms. auto.
    - unfold try_catch. cbn [fst snd].
      rewrite !fetch_calls_app, !sent_messages_app, Hs0, Hf0, Hf. auto. }
  unfold result_messages in *.
  destruct (fetch u init) as [e | response] eqn:Hfetch.
  - cbn -[try_catch on_error]. apply Hfin; [reflexivity|]. left. eexists _, e. cbn. auto.
  - cbn -[try_catch on_error]. destruct (resp_body response) as [chunks ending | [e | t]].
    + rewrite read_loop_eq.
      destruct (decode_chunks new_TextDecoder chunks) as [ts d] eqn:Hd.
      cbn [fst snd]. unfold final_chunk in *.
      destruct ending as [|e].
      * cbn -[try_catch on_error].
        destruct (decode_end d) as [|c t]; cbn -[try_catch on_error];
          (apply Hfin; [count_calls; reflexivity|]);
          right; (split; [reflexivity|]); count_calls; rewrite ?app_nil_r; reflexivity.
      * cbn -[try_catch on_error].
        apply Hfin; [count_calls; reflexivity|].
        left. eexists _, e. split; [reflexivity|]. split; [reflexivity|].
        count_calls. rewrite ?app_nil_r. reflexivity.
    + apply Hfin; [reflexivity|]. left. eexists _, e. cbn. auto.
    + apply Hfin; [reflexivity|]. right. cbn. auto.
Qed.



End BridgeFacts.

(** * The bridge: what a command produces *)







Section BridgeTheorems.

Context `{Web}.


(** X17: when [fetch] rejects, the command's only message is one [error].
    Its code is [FETCH_ERROR] and its message the error's message, unless
    the rejection value is a [Response] with a non-zero status: then the
    code is [HTTP_ERROR] and the status and body text of that response are
    attached, with empty headers. *)
Theorem fetch_rejection_single_error (request : WSHttpRequestMessage) (e : Thrown) :
  let p := payload request in
  fetch (executed_url request) (fetch_options (method p) (headers p) (body p)) = inl e ->
  sent_messages (fst (handleHttpRequest request)) = [error_message (id request) e]
  /\ (forall message, e = ThrownError message ->
      error_message (id request) e
      = WSErrorMessage (id request) "FETCH_ERROR" message None).
Proof.
  intros p Hfetch.
  destruct (handleHttpRequest_runs request) as (_ & Hs & _).
  cbv zeta in Hs. fold p in Hs. rewrite Hfetch in Hs.
  split; [exact Hs|]. intros message ->. reflexivity.
Qed.





(** X22: in every other case the URL is fetched exactly as it was given:
    when the method is not [GET], when the URL does not parse, when its
    path does not end in the models segment, and when its query has no
    [key]. *)
Theorem url_passed_through (request : WSHttpRequestMessage) :
  let p := payload request in
  (method p <> "GET"%string
   \/ URL_parse (url p) = None
   \/ exists parsedUrl,
        URL_parse (url p) = Some parsedUrl
        /\ (endsWith (pathname parsedUrl) "/v1beta/models"
            || endsWith (pathname parsedUrl) "/v1beta/models/" = false
            \/ searchParams_has "key" (searchParams parsedUrl) = false)) ->
  fetch_calls (fst (handleHttpRequest request))
  = [(url p, fetch_options (method p) (headers p) (body p))].
Proof.
  intros p Hcase.
  destruct (handleHttpRequest_runs request) as (Hf & _ & _).
  cbv zeta in Hf. fold p in Hf. rewrite Hf. f_equal. f_equal.
  unfold executed_url, fetched_url. fold p.
  destruct (String.eqb (method p) "GET") eqn:Em; [|reflexivity].
  destruct Hcase as [Hm | [Hp | (parsedUrl & Hp & [Hpath | Hkey])]].
  - apply String.eqb_eq in Em. contradiction.
  - rewrite Hp. reflexivity.
  - rewrite Hp, Hpath. reflexivity.
  - rewrite Hp, Hkey. destruct (_ || _); reflexivity.
Qed.

(** X23: the [fetch] call is made with the command's method and headers;
    the command's body is passed on except for [GET] and [HEAD], which are
    sent without a body whatever the command holds. *)
Theorem body_only_for_other_methods (request : WSHttpRequestMessage) :
  let p := payload request in
  exists u init,
    fetch_calls (fst (handleHttpRequest request)) = [(u, init)]
    /\ ri_method init = method p
    /\ ri_headers init = headers p
    /\ ri_body init = if bool_decide (method p = "GET"%string
                                      \/ method p = "HEAD"%string)
                      then None else body p.
Proof.
  intros p.
  destruct (handleHttpRequest_runs request) as (Hf & _ & _).
  cbv zeta in Hf. fold p in Hf. eexists _, _. split; [exact Hf|].
  split; [reflexivity|]. split; [reflexivity|].
  unfold fetch_options. cbn [ri_body].
  destruct (String.eqb (method p) "GET") eqn:E1.
  - apply String.eqb_eq in E1. rewrite bool_decide_eq_true_2 by auto. reflexivity.
  - destruct (String.eqb (method p) "HEAD") eqn:E2.
    + apply String.eqb_eq in E2. rewrite bool_decide_eq_true_2 by auto. reflexivity.
    + apply String.eqb_neq in E1, E2.
      rewrite bool_decide_eq_false_2 by tauto. reflexivity.
Qed.

End BridgeTheorems.

(** * Concrete runs *)

(** A platform on which every frame fails to parse and the constructor
    never throws. *)
#[local] Instance quiet_platform : Platform :=
  {| JSON_parse := fun _ => None; WebSocket_throws := fun _ => None |}.

(** The empty string is a missing token: from the state right after a
    socket was requested the call ends in [ERROR] with the first socket
    still the only one. *)
Lemma connect_requires_token_witness :
  let w := connect (Some "tok"%string) initial in
  currentStatus (connect (Some ""%string) w) = ERROR
  /\ sockets (connect (Some ""%string) w) = sockets w.
Proof.
  intro w.
  pose proof (connect_requires_token w (Some ""%string) eq_refl) as H.
  cbv zeta in H. destruct H as (H1 & _ & H3 & _). split; assumption.
Defined.

(** A run on which the first socket closes before it opens, and the state
    it ends in. *)
Definition first_close : list Event :=
  [CallConnect (Some "tok"%string);
   SocketCloses 0 {| ce_code := 1006; ce_reason := "" |}].

Definition after_first_close : World :=
  Eval vm_compute in
    match run initial first_close with Some w => w | None => initial end.

Lemma run_first_close : run initial first_close = Some after_first_close.
Proof. vm_compute. reflexivity. Qed.

(** A run on which the first socket opens, and the state it ends in. *)
Definition first_open : list Event :=
  [CallConnect (Some "tok"%string); SocketOpens 0].

Definition after_first_open : World :=
  Eval vm_compute in
    match run initial first_open with Some w => w | None => initial end.

Lemma run_first_open : run initial first_open = Some after_first_open.
Proof. vm_compute. reflexivity. Qed.


Lemma reachable_single_keepalive_interval_witness :
  run initial first_open = Some after_first_open
  /\ intervals after_first_open = [(1%positive, 25000)].
Proof.
  split; [exact run_first_open|].
  exact (reachable_single_keepalive_interval first_open after_first_open run_first_open).
Defined.

Lemma reachable_backoff_in_range_witness :
  run initial first_close = Some after_first_close
  /\ 1000 <= currentReconnectDelay after_first_close <= 30000.
Proof.
  split; [exact run_first_close|].
  apply (reachable_backoff_in_range first_close after_first_close run_first_close).
Defined.

(** After a first open, two closes with one reconnect in between. *)
Definition abnormal : CloseEvent := {| ce_code := 1006; ce_reason := "" |}.

Definition two_closes : list Event :=
  failed_attempts [(0%nat, abnormal, 2%positive)] ++ [SocketCloses 1 abnormal].

Definition after_two_closes : World :=
  Eval vm_compute in
    match run after_first_open two_closes with Some w => w | None => initial end.

Lemma run_two_closes : run after_first_open two_closes = Some after_two_closes.
Proof. vm_compute. reflexivity. Qed.

Lemma backoff_doubles_to_ceiling_witness :
  run after_first_open two_closes = Some after_two_closes
  /\ scheduled_bases (trace after_two_closes) = [1000; 2000]
  /\ currentReconnectDelay after_two_closes = 4000.
Proof.
  split; [exact run_two_closes|].
  pose proof (backoff_doubles_to_ceiling "tok" after_first_open after_two_closes
                [(0%nat, abnormal, 2%positive)] 1 abnormal
                eq_refl eq_refl eq_refl eq_refl eq_refl eq_refl run_two_closes)
    as (Hb & Hd & _).
  split; [exact Hb|exact Hd].
Defined.

Definition after_connect : World :=
  Eval vm_compute in
    match run initial [CallConnect (Some "tok"%string)] with
    | Some w => w
    | None => initial
    end.

Lemma run_connect : run initial [CallConnect (Some "tok"%string)] = Some after_connect.
Proof. vm_compute. reflexivity. Qed.

Lemma step_first_open : step after_connect (SocketOpens 0) = Some after_first_open.
Proof. vm_compute. reflexivity. Qed.

Lemma open_resets_backoff_witness :
  step after_connect (SocketOpens 0) = Some after_first_open
  /\ currentReconnectDelay after_first_open = 1000
  /\ currentStatus after_first_open = CONNECTED.
Proof.
  split; [exact step_first_open|].
  pose proof (open_resets_backoff [CallConnect (Some "tok"%string)] after_connect
                after_first_open 0 run_connect step_first_open) as (Hd & Hs & _).
  split; [exact Hd|exact Hs].
Defined.

(** A second socket is requested while the first is still closing; the
    first then closes, which schedules a reconnect, and the second closes
    while that timeout is pending. *)
Definition overlapping : list Event :=
  [CallConnect (Some "tok"%string); CallDisconnect; CallConnect (Some "tok"%string);
   SocketCloses 0 abnormal].

Definition after_overlapping : World :=
  Eval vm_compute in
    match run initial overlapping with Some w => w | None => initial end.

Definition after_duplicate_close : World :=
  Eval vm_compute in
    match step after_overlapping (SocketCloses 1 abnormal) with
    | Some w => w
    | None => initial
    end.

Lemma step_duplicate_close :
  step after_overlapping (SocketCloses 1 abnormal) = Some after_duplicate_close.
Proof. vm_compute. reflexivity. Qed.

Lemma duplicate_close_ignored_witness :
  reconnectTimeoutId after_overlapping = Some 1%positive
  /\ currentStatus after_duplicate_close = RECONNECTING
  /\ timeouts after_duplicate_close = timeouts after_overlapping.
Proof.
  split; [reflexivity|].
  pose proof (duplicate_close_ignored after_overlapping after_duplicate_close 1
                abnormal 1%positive eq_refl step_duplicate_close)
    as (Hs & _ & Ht & _).
  split; [exact Hs|exact Ht].
Defined.

Lemma keepalive_follows_events_witness :
  run initial first_open = Some after_first_open
  /\ keepalive_running after_first_open = true.
Proof.
  split; [exact run_first_open|].
  exact (keepalive_follows_events first_open initial after_first_open run_first_open).
Defined.

Definition after_disconnect_and_close : World :=
  Eval vm_compute in
    match run (disconnect after_first_open) [SocketCloses 0 abnormal] with
    | Some w => w
    | None => initial
    end.

Lemma run_disconnect_and_close :
  run (disconnect after_first_open) [SocketCloses 0 abnormal]
  = Some after_disconnect_and_close.
Proof. vm_compute. reflexivity. Qed.

Lemma disconnect_stops_reconnecting_witness :
  Forall no_connect_call [SocketCloses 0 abnormal]
  /\ length (sockets after_disconnect_and_close) = 1%nat
  /\ timeouts after_disconnect_and_close = [].
Proof.
  assert (Hes : Forall no_connect_call [SocketCloses 0 abnormal])
    by (repeat constructor).
  split; [exact Hes|].
  pose proof (disconnect_stops_reconnecting first_open [SocketCloses 0 abnormal]
                after_first_open after_disconnect_and_close
                run_first_open Hes run_disconnect_and_close) as (Hl & _ & Ht & _).
  split; [exact Hl|exact Ht].
Defined.

Definition observed : list Event :=
  [CallSetOnStatusChange true; CallConnect (Some "tok"%string)].

Definition after_observed : World :=
  Eval vm_compute in
    match run initial observed with Some w => w | None => initial end.

Lemma run_observed : run initial observed = Some after_observed.
Proof. vm_compute. reflexivity. Qed.

Lemma observer_never_stale_witness :
  onStatusChangeCallback after_observed = true
  /\ last_observed (trace after_observed) = Some CONNECTING.
Proof.
  split; [reflexivity|].
  exact (observer_never_stale observed after_observed run_observed eq_refl).
Defined.

(** A platform whose [WebSocket] constructor always throws. *)
Definition throwing_platform : Platform :=
  {| JSON_parse := fun _ => None;
     WebSocket_throws := fun _ => Some "SyntaxError"%string |}.

Lemma connect_constructor_throws_witness :
  socket_live initial = false
  /\ currentStatus (@connect throwing_platform (Some "tok"%string) initial) = RECONNECTING
  /\ sockets (@connect throwing_platform (Some "tok"%string) initial) = [].
Proof.
  split; [reflexivity|].
  pose proof (@connect_constructor_throws throwing_platform initial "t"%char "ok"
                "SyntaxError" eq_refl eq_refl) as (Hs & _ & Hk & _).
  split; [exact Hs|exact Hk].
Defined.

Lemma connect_opens_socket_witness :
  socket_live initial = false
  /\ currentStatus (connect (Some "tok"%string) initial) = CONNECTING
  /\ socket (connect (Some "tok"%string) initial) = Some 0%nat.
Proof.
  split; [reflexivity|].
  pose proof (connect_opens_socket initial "t"%char "ok" eq_refl eq_refl)
    as (Hs & Hk & _).
  split; [exact Hs|exact Hk].
Defined.

(** The first socket is still connecting when [connect] is called with a
    second token; it then closes and the reconnect timeout fires. *)
Definition after_second_token : World :=
  Eval vm_compute in connect (Some "new"%string) after_connect.

Definition after_second_token_close : World :=
  Eval vm_compute in
    match step after_second_token (SocketCloses 0 abnormal) with
    | Some w => w
    | None => initial
    end.

Definition after_second_token_reconnect : World :=
  Eval vm_compute in
    match step after_second_token_close (TimeoutFires 1) with
    | Some w => w
    | None => initial
    end.

Lemma connect_while_live_witness :
  socket_live after_connect = true
  /\ connect (Some "new"%string) after_connect
     = log AlreadyConnected (set_currentJwtToken (Some "new"%string) after_connect)
  /\ ws_url <$> sockets after_second_token_reconnect !! 1%nat
     = Some "wss://lbls888-cliproxyapi.hf.space/v1/ws?auth_token=new"%string.
Proof.
  split; [reflexivity|].
  destruct (connect_while_live after_connect "n"%char "ew" eq_refl) as (Hc & Hr).
  split; [exact Hc|].
  destruct (Hr eq_refl eq_refl eq_refl 0%nat abnormal 1%positive
              after_second_token_close after_second_token_reconnect
              eq_refl eq_refl) as (_ & Hl & _).
  change (length (sockets after_connect)) with 1%nat in Hl.
  rewrite Hl. reflexivity.
Defined.

Definition after_disconnect_close : World :=
  Eval vm_compute in
    match step (disconnect after_first_open) (SocketCloses 0 abnormal) with
    | Some w => w
    | None => initial
    end.

Lemma disconnect_closes_live_socket_witness :
  socket_live after_first_open = true
  /\ currentStatus (disconnect after_first_open) = CONNECTED
  /\ pingIntervalId (disconnect after_first_open) = None
  /\ currentStatus after_disconnect_close = IDLE.
Proof.
  split; [reflexivity|].
  pose proof (disconnect_closes_live_socket first_open after_first_open 0
                run_first_open eq_refl eq_refl)
    as ((Hs & _ & _ & _ & _ & _ & _ & Hp & _) & Hclose).
  split; [exact Hs|]. split; [exact Hp|].
  exact (proj1 (Hclose abnormal after_disconnect_close eq_refl)).
Defined.




(** * Concrete commands *)

(** Split at the first [sep]. *)
Fixpoint split_first (sep : ascii) (s : string) : string * option string :=
  match s with
  | EmptyString => (EmptyString, None)
  | String c s' =>
      if Ascii.eqb c sep then (EmptyString, Some s')
      else let (a, b) := split_first sep s' in (String c a, b)
  end.

(** A [URL] parser for absolute URLs that are already in serialised form:
    [scheme://authority/path?query#fragment]. *)
Definition simple_URL_parse (s : string) : option URL :=
  let (s1, fragment) := split_first "#" s in
  let (s2, query) := split_first "?" s1 in
  match String.index 0 "://" s2 with
  | Some n =>
      let rest := substring (n + 3) (String.length s2 - (n + 3)) s2 in
      let (authority, path) := split_first "/" rest in
      Some {| url_prefix := substring 0 (n + 3) s2 +:+ authority;
              pathname := match path with
                          | Some p => String "/" p
                          | None => "/"
                          end;
              url_query := query;
              url_fragment := fragment |}
  | None => None
  end.

(** A platform on which [fetch] always ends the same way. *)
Definition web_of (r : Thrown + Response) : Web :=
  {| URL_parse := simple_URL_parse; fetch := fun _ _ => r |}.

Definition list_models (i : string) : WSHttpRequestMessage :=
  {| id := i;
     payload := {| method := "GET";
                   url := "https://api.example.com/v1beta/models?key=secret123&pageSize=5";
                   headers := []; body := None |} |}.

Definition generate : WSHttpRequestMessage :=
  {| id := "r3";
     payload := {| method := "POST";
                   url := "https://api.example.com/v1beta/models/m:generate?key=secret123";
                   headers := [("content-type", "application/json")];
                   body := Some "{}" |} |}.




Definition failed : Thrown + Response := inl (ThrownError "Failed to fetch").

Lemma fetch_rejection_single_error_witness :
  sent_messages (fst (@handleHttpRequest (web_of failed) (list_models "r2")))
  = [WSErrorMessage "r2" "FETCH_ERROR" "Failed to fetch" None].
Proof.
  exact (proj1 (@fetch_rejection_single_error (web_of failed) (list_models "r2")
                  (ThrownError "Failed to fetch") eq_refl)).
Defined.






Lemma url_passed_through_witness :
  fetch_calls (fst (@handleHttpRequest (web_of failed) generate))
  = [("https://api.example.com/v1beta/models/m:generate?key=secret123"%string,
      {| ri_method := "POST"; ri_headers := [("content-type", "application/json")];
         ri_body := Some "{}"%string |})].
Proof.
  apply (@url_passed_through (web_of failed) generate).
  left. discriminate.
Defined.
